(** * GmailParser: the rule engine ([gmail_parser/rule_engine.py])

    A shallow embedding of [RuleEngine] and of the part of [config.py] it
    reads, over a model of the Python values that reach it: the rule document
    as [json.load] returns it, and the e-mail records of the database layer.

    Text is modelled as [string], one [ascii] per character, read as the code
    point of that number: the model of the string methods ([lower], [split],
    [int], [in]) is the behaviour of Python on text whose code points are all
    below 256. *)

From Stdlib Require Import ZArith String Ascii List Bool Lia.
From Stdlib Require Import Floats.SpecFloat.
From stdpp Require Import base option list gmap strings pretty.

#[local] Set Warnings "-register-all".
#[local] Open Scope string_scope.
#[local] Open Scope Z_scope.

(** ** Python values *)

(** A [datetime] object: the wall-clock reading in microseconds since
    0001-01-01T00:00:00 ([datetime.min]), and the UTC offset in microseconds
    when the object is timezone-aware ([None] for a naive one). *)
Record datetime := mk_datetime { wall_us : Z; utcoffset : option Z }.

(** The values the engine meets.  A [dict] only ever has text keys here (JSON
    objects, database rows), and the engine only looks keys up. *)
Inductive pyval :=
| PNone
| PBool (b : bool)
| PInt (z : Z)
| PFloat (f : spec_float)
| PStr (s : string)
| PList (l : list pyval)
| PDict (d : gmap string pyval)
| PDateTime (d : datetime).

(** The exceptions that can leave [open] and [json.load]. *)
Inductive exn :=
| FileNotFoundError
| PermissionError
| IsADirectoryError
| UnicodeDecodeError
| JSONDecodeError
| RecursionError.

(** ** Builtins *)

(** [bool(v)], as [if not v] tests it. *)
Definition py_truthy (v : pyval) : bool :=
  match v with
  | PNone => false
  | PBool b => b
  | PInt z => negb (z =? 0)
  | PFloat f => match f with S754_zero _ => false | _ => true end
  | PStr s => negb (bool_decide (s = ""))
  | PList l => match l with [] => false | _ => true end
  | PDict d => negb (bool_decide (d = ∅))
  | PDateTime _ => true
  end.

(** [v == s] for a text constant [s]: only equal text is equal. *)
Definition py_eq_str (v : pyval) (s : string) : bool :=
  match v with
  | PStr t => bool_decide (t = s)
  | _ => false
  end.

(** [v in l] for a list [l] of text constants. *)
Definition py_in_strs (v : pyval) (l : list string) : bool :=
  existsb (py_eq_str v) l.

(** [needle in hay] on text: [needle] occurs as a substring. *)
Fixpoint substringb (needle hay : string) : bool :=
  String.prefix needle hay ||
  match hay with
  | EmptyString => false
  | String _ hay' => substringb needle hay'
  end.

(** [key in obj] for a text [key]; [None] is the TypeError of an operand that
    is not a container. *)
Definition py_in (key : string) (obj : pyval) : option bool :=
  match obj with
  | PDict d => Some (bool_decide (is_Some (d !! key)))
  | PStr s => Some (substringb key s)
  | PList l => Some (existsb (fun x => py_eq_str x key) l)
  | _ => None
  end.

(** [obj[key]] for a text [key]; [None] is the KeyError of a dict without the
    key, or the TypeError of any other operand. *)
Definition py_getitem (obj : pyval) (key : string) : option pyval :=
  match obj with
  | PDict d => d !! key
  | _ => None
  end.

(** [obj.get(key, default)]; [None] is the AttributeError of an operand that
    is not a dict. *)
Definition py_get (obj : pyval) (key : string) (dflt : pyval) : option pyval :=
  match obj with
  | PDict d => Some (match d !! key with Some v => v | None => dflt end)
  | _ => None
  end.

(** [for x in obj]: the elements visited; [None] is the TypeError of an
    operand that is not iterable.  A dict is visited by its keys, here in
    the order of the map and not of insertion: the engine only iterates a
    dict where a list of conditions was expected, and then each key fails as
    a condition whatever the order. *)
Definition py_iter (obj : pyval) : option (list pyval) :=
  match obj with
  | PList l => Some l
  | PStr s => Some (map (fun c => PStr (String c EmptyString)) (list_ascii_of_string s))
  | PDict d => Some (map (fun kv => PStr kv.1) (map_to_list d))
  | _ => None
  end.

(** [key in m] and [m.get(key)] for a dict [m] with text keys and an arbitrary
    [key]: a list or a dict is unhashable ([None], TypeError), and only text
    can be equal to a key. *)
Definition py_dict_contains {A} (m : gmap string A) (key : pyval) : option bool :=
  match key with
  | PList _ | PDict _ => None
  | PStr s => Some (bool_decide (is_Some (m !! s)))
  | _ => Some false
  end.

Definition py_dict_get {A} (m : gmap string A) (key : pyval) : option (option A) :=
  match key with
  | PList _ | PDict _ => None
  | PStr s => Some (m !! s)
  | _ => Some None
  end.

(** [c.lower()] on one character below 256: A-Z and the Latin-1 capitals. *)
Definition lower_char (c : ascii) : ascii :=
  let n := nat_of_ascii c in
  if ((65 <=? n) && (n <=? 90) ||
      (192 <=? n) && (n <=? 222) && negb (n =? 215))%nat
  then ascii_of_nat (n + 32) else c.

(** [s.lower()]. *)
Fixpoint lower (s : string) : string :=
  match s with
  | EmptyString => EmptyString
  | String c s' => String (lower_char c) (lower s')
  end.

(** [c.isspace()] below 256, the separators of [str.split()]. *)
Definition is_space (c : ascii) : bool :=
  let n := nat_of_ascii c in
  ((9 <=? n) && (n <=? 13) || (28 <=? n) && (n <=? 32) ||
   (n =? 133) || (n =? 160))%nat.

(** [s.split()]: the maximal runs of characters that are not white space.
    [cur] is the run being read, if one has started. *)
Fixpoint split_from (cur : option string) (s : string) : list string :=
  match s with
  | EmptyString => match cur with Some w => [w] | None => [] end
  | String c s' =>
      if is_space c then
        match cur with
        | Some w => w :: split_from None s'
        | None => split_from None s'
        end
      else
        split_from (Some (default EmptyString cur +:+ String c EmptyString)) s'
  end.

Definition split (s : string) : list string := split_from None s.

(** [value.split()] on an arbitrary value: AttributeError unless it is text. *)
Definition py_split (v : pyval) : option (list string) :=
  match v with
  | PStr s => Some (split s)
  | _ => None
  end.

Definition digit_val (c : ascii) : option Z :=
  let n := nat_of_ascii c in
  if ((48 <=? n) && (n <=? 57))%nat then Some (Z.of_nat n - 48) else None.

(** The digits after the first one: single underscores may separate digits.
    [after_us] tells that the previous character was an underscore. *)
Fixpoint int_digits (acc : Z) (after_us : bool) (s : string) : option Z :=
  match s with
  | EmptyString => if after_us then None else Some acc
  | String c s' =>
      if bool_decide (c = "_"%char) then
        if after_us then None else int_digits acc true s'
      else
        match digit_val c with
        | Some d => int_digits (10 * acc + d) false s'
        | None => None
        end
  end.

Definition int_unsigned (s : string) : option Z :=
  match s with
  | String c s' =>
      match digit_val c with
      | Some d => int_digits d false s'
      | None => None
      end
  | EmptyString => None
  end.

(** [int(s)] in base 10 for a token without white space; [None] is the
    ValueError.  (The interpreter's cap on the number of digits, one more
    ValueError, is not modelled.) *)
Definition py_int (s : string) : option Z :=
  match s with
  | String "-" s' => Z.opp <$> int_unsigned s'
  | String "+" s' => int_unsigned s'
  | _ => int_unsigned s
  end.

(** ** [datetime] and [timedelta] *)

Definition us_per_day : Z := 86400 * 1000000.

(** [date.max.toordinal()]: the days from 0001-01-01 to 9999-12-31, both
    counted. *)
Definition max_ordinal : Z := 3652059.

(** [timedelta(days=n)], in microseconds; OverflowError above 999999999 days
    in magnitude. *)
Definition timedelta_days (n : Z) : option Z :=
  if Z.abs n <=? 999999999 then Some (n * us_per_day) else None.

(** [d - delta]: OverflowError when the result leaves
    [datetime.min .. datetime.max]; the UTC offset is kept. *)
Definition datetime_sub (d : datetime) (delta : Z) : option datetime :=
  let r := wall_us d - delta in
  if (0 <=? r) && (r <? max_ordinal * us_per_day)
  then Some (mk_datetime r (utcoffset d)) else None.

(** [a < b] for two datetimes: TypeError between a naive and an aware one;
    two aware ones are compared as instants. *)
Definition datetime_lt (a b : datetime) : option bool :=
  match utcoffset a, utcoffset b with
  | None, None => Some (wall_us a <? wall_us b)
  | Some oa, Some ob => Some (wall_us a - oa <? wall_us b - ob)
  | _, _ => None
  end.

(** [v < d] and [v > d] for an arbitrary left operand: TypeError unless it is
    a datetime. *)
Definition py_lt_datetime (v : pyval) (d : datetime) : option bool :=
  match v with
  | PDateTime a => datetime_lt a d
  | _ => None
  end.

Definition py_gt_datetime (v : pyval) (d : datetime) : option bool :=
  match v with
  | PDateTime a => datetime_lt d a
  | _ => None
  end.

(** ** [config.py] *)

Definition FIELD_MAPPING : gmap string string :=
  {[ "From" := "from_address";
     "To" := "to_address";
     "Subject" := "subject";
     "Message" := "message";
     "Received" := "received_date" ]}.

Definition STRING_PREDICATES : list string :=
  ["Contains"; "Does not Contain"; "Equals"; "Does not equal"].

Definition DATE_PREDICATES : list string := ["Less than"; "Greater than"].

Definition ACTIONS : list string := ["mark_unread"; "mark_read"; "move_message"].

(** ** [RuleEngine]: validation

    Each validator is a [try] block whose [except Exception] answers False:
    the body is written in the option monad, [None] standing for the
    exception, and the validator defaults it to [false]. *)

(** [for field in required: if field not in obj: return False]; [Some true]
    when the loop returns. *)
Fixpoint missing_key (required : list string) (obj : pyval) : option bool :=
  match required with
  | [] => Some false
  | field :: rest =>
      present ← py_in field obj;
      if (present : bool) then missing_key rest obj else Some true
  end.

Definition _validate_condition_body (condition : pyval) : option bool :=
  missing ← missing_key ["field"; "predicate"; "value"] condition;
  if (missing : bool) then Some false else
  field_name ← py_getitem condition "field";
  known ← py_dict_contains FIELD_MAPPING field_name;
  if negb known then Some false else
  predicate ← py_getitem condition "predicate";
  if py_eq_str field_name "Received" then
    if negb (py_in_strs predicate DATE_PREDICATES) then Some false else Some true
  else
    if negb (py_in_strs predicate STRING_PREDICATES) then Some false else Some true.

Definition _validate_condition (condition : pyval) : bool :=
  default false (_validate_condition_body condition).

Definition _validate_action_body (action : pyval) : option bool :=
  present ← py_in "type" action;
  if negb present then Some false else
  type ← py_getitem action "type";
  if negb (py_in_strs type ACTIONS) then Some false else
  if py_eq_str type "mark_read" then
    has_value ← py_in "value" action;
    if negb has_value then Some false else
    value ← py_getitem action "value";
    match value with
    | PBool _ => Some true
    | _ => Some false
    end
  else if py_eq_str type "mark_unread" then Some true
  else if py_eq_str type "move_message" then
    has_value ← py_in "value" action;
    if negb has_value then Some false else
    value ← py_getitem action "value";
    match value with
    | PStr _ => Some true
    | _ => Some false
    end
  else Some true.

Definition _validate_action (action : pyval) : bool :=
  default false (_validate_action_body action).

Definition _validate_rule_body (rule : pyval) : option bool :=
  missing ← missing_key ["predicate"; "conditions"; "actions"] rule;
  if (missing : bool) then Some false else
  predicate ← py_getitem rule "predicate";
  if negb (py_in_strs predicate ["All"; "Any"]) then Some false else
  conditions ← py_getitem rule "conditions";
  match conditions with
  | PList conditions =>
      if negb (forallb _validate_condition conditions) then Some false else
      actions ← py_getitem rule "actions";
      match actions with
      | PList actions =>
          if negb (forallb _validate_action actions) then Some false else Some true
      | _ => Some false
      end
  | _ => Some false
  end.

Definition _validate_rule (rule : pyval) : bool :=
  default false (_validate_rule_body rule).

(** ** [RuleEngine]: loading *)

Record RuleEngine := mk_engine { rules_file : string; rules : list pyval }.

(** What [open(path)] followed by [json.load(f)] does: raise, or return the
    parsed document. *)
Inductive read_result :=
| Raise (e : exn)
| Return (data : pyval).

(** The loop of [_load_rules] over the candidate rules; [valid_rules] is the
    list it appends to. *)
Fixpoint validate_each (candidates valid_rules : list pyval) : list pyval :=
  match candidates with
  | [] => valid_rules
  | rule :: rest =>
      if _validate_rule rule
      then validate_each rest (valid_rules ++ [rule])
      else validate_each rest valid_rules
  end.

(** [_load_rules]: the engine afterwards, and the exception that leaves the
    method, if one does.  Only FileNotFoundError and JSONDecodeError have a
    handler. *)
Definition _load_rules (fs : string → read_result) (self : RuleEngine)
  : RuleEngine * option exn :=
  match fs (rules_file self) with
  | Return data =>
      match data with
      | PList candidates =>
          (mk_engine (rules_file self) (validate_each candidates []), None)
      | PDict _ =>
          (mk_engine (rules_file self) (validate_each [data] []), None)
      | _ => (mk_engine (rules_file self) [], None)
      end
  | Raise FileNotFoundError => (mk_engine (rules_file self) [], None)
  | Raise JSONDecodeError => (mk_engine (rules_file self) [], None)
  | Raise e => (self, Some e)
  end.

(** [RuleEngine(rules_file)]: the constructor; an exception that leaves
    [_load_rules] leaves the constructor. *)
Definition __init__ (fs : string → read_result) (file : string)
  : exn + RuleEngine :=
  match _load_rules fs (mk_engine file []) with
  | (self, None) => inr self
  | (_, Some e) => inl e
  end.

Definition reload_rules (fs : string → read_result) (self : RuleEngine)
  : RuleEngine * option exn :=
  _load_rules fs self.

(** ** [RuleEngine]: evaluation

    Three things come from outside the repository: [dateutil]'s
    [parser.parse] ([None] when it raises), the text [str] gives for a float,
    a container or a datetime, and the clock.  [clock k] is the reading of
    the [k]-th call of [datetime.now()], in microseconds since
    [datetime.min]; the functions that may read the clock take the number
    [t] of readings made so far and return it updated. *)

Section Evaluation.

Variable parser_parse : string → option datetime.
Variable py_str_other : pyval → string.
Variable clock : nat → Z.

(** [str(v)]. *)
Definition py_str (v : pyval) : string :=
  match v with
  | PNone => "None"
  | PBool true => "True"
  | PBool false => "False"
  | PInt z => pretty z
  | PStr s => s
  | _ => py_str_other v
  end.

(** [datetime.now()]: a naive datetime. *)
Definition now (t : nat) : datetime * nat :=
  (mk_datetime (clock t) None, S t).

Definition _check_string_condition (email_value predicate value : pyval) : bool :=
  let email_value := lower (py_str email_value) in
  let value := lower (py_str value) in
  if py_eq_str predicate "Contains" then substringb value email_value
  else if py_eq_str predicate "Does not Contain" then negb (substringb value email_value)
  else if py_eq_str predicate "Equals" then bool_decide (email_value = value)
  else if py_eq_str predicate "Does not equal" then negb (bool_decide (email_value = value))
  else false.

(** The end of [_check_date_condition], once the number of days is known:
    [datetime.now() - timedelta(days=days)], then the predicate.  The clock
    is read before [timedelta] can raise. *)
Definition compare_with_threshold (email_datetime predicate : pyval) (days : Z)
    (t : nat) : bool * nat :=
  let '(n, t') := now t in
  match timedelta_days days ≫= datetime_sub n with
  | None => (false, t')
  | Some comparison_date =>
      if py_eq_str predicate "Less than" then
        (default false (py_lt_datetime email_datetime comparison_date), t')
      else if py_eq_str predicate "Greater than" then
        (default false (py_gt_datetime email_datetime comparison_date), t')
      else (false, t')
  end.

Definition _check_date_condition (email_date predicate value : pyval)
    (t : nat) : bool * nat :=
  match
    match email_date with
    | PStr s => PDateTime <$> parser_parse s
    | _ => Some email_date
    end
  with
  | None => (false, t)
  | Some email_datetime =>
      match py_split value with
      | None => (false, t)
      | Some parts =>
          match parts with
          | [number_text; unit_text] =>
              match py_int number_text with
              | None => (false, t)
              | Some number =>
                  let unit_ := lower unit_text in
                  if bool_decide (unit_ ∈ ["day"; "days"]) then
                    compare_with_threshold email_datetime predicate number t
                  else if bool_decide (unit_ ∈ ["month"; "months"]) then
                    compare_with_threshold email_datetime predicate (number * 30) t
                  else (false, t)
              end
          | _ => (false, t)
          end
      end
  end.

Definition evaluate_condition (condition email : pyval) (t : nat) : bool * nat :=
  match
    field_name ← py_getitem condition "field";
    predicate ← py_getitem condition "predicate";
    value ← py_getitem condition "value";
    db_field ← py_dict_get FIELD_MAPPING field_name;
    Some (field_name, predicate, value, db_field)
  with
  | None => (false, t)
  | Some (field_name, predicate, value, db_field) =>
      match db_field with
      | None => (false, t)
      | Some db_field =>
          if negb (py_truthy (PStr db_field)) then (false, t) else
          match py_get email db_field (PStr "") with
          | None => (false, t)
          | Some email_value =>
              if py_eq_str field_name "Received" then
                _check_date_condition email_value predicate value t
              else
                (_check_string_condition email_value predicate value, t)
          end
      end
  end.

(** The loop of [evaluate_rule]: [results] is the list it appends to. *)
Fixpoint collect_results (conditions : list pyval) (email : pyval)
    (results : list bool) (t : nat) : list bool * nat :=
  match conditions with
  | [] => (results, t)
  | condition :: rest =>
      let '(result, t') := evaluate_condition condition email t in
      collect_results rest email (results ++ [result]) t'
  end.

Definition evaluate_rule (rule email : pyval) (t : nat) : bool * nat :=
  match
    predicate ← py_getitem rule "predicate";
    conditions ← py_getitem rule "conditions";
    Some (predicate, conditions)
  with
  | None => (false, t)
  | Some (predicate, conditions) =>
      if negb (py_truthy conditions) then (false, t) else
      match py_iter conditions with
      | None => (false, t)
      | Some conditions =>
          let '(results, t') := collect_results conditions email [] t in
          if py_eq_str predicate "All" then (forallb id results, t')
          else if py_eq_str predicate "Any" then (existsb id results, t')
          else (false, t')
      end
  end.

(** The loop of [get_matching_emails]: [matching] is the list it appends
    to. *)
Fixpoint matching_from (emails : list pyval) (rule : pyval)
    (matching : list pyval) (t : nat) : list pyval * nat :=
  match emails with
  | [] => (matching, t)
  | email :: rest =>
      let '(matched, t') := evaluate_rule rule email t in
      matching_from rest rule (if matched then matching ++ [email] else matching) t'
  end.

Definition get_matching_emails (emails : list pyval) (rule : pyval) (t : nat)
  : list pyval * nat :=
  matching_from emails rule [] t.

(** One entry of the mapping [process_emails] returns: the keys ['rule'],
    ['matching_emails'] and ['count']. *)
Record rule_result := mk_rule_result {
  res_rule : pyval;
  res_matching_emails : list pyval;
  res_count : nat
}.

(** [results[key] = value] on a dict that remembers insertion order: a key
    already present keeps its place. *)
Fixpoint dict_setitem {A} (key : string) (value : A) (d : list (string * A))
  : list (string * A) :=
  match d with
  | [] => [(key, value)]
  | (k, v) :: d' =>
      if bool_decide (k = key) then (key, value) :: d'
      else (k, v) :: dict_setitem key value d'
  end.

(** [f"rule_{i+1}"]. *)
Definition rule_name (i : nat) : string := "rule_" +:+ pretty (i + 1)%nat.

(** The loop of [process_emails] from position [i] of [enumerate]. *)
Fixpoint process_from (i : nat) (todo emails : list pyval)
    (results : list (string * rule_result)) (t : nat)
  : list (string * rule_result) * nat :=
  match todo with
  | [] => (results, t)
  | rule :: rest =>
      let '(matching, t') := get_matching_emails emails rule t in
      process_from (S i) rest emails
        (dict_setitem (rule_name i)
           (mk_rule_result rule matching (length matching)) results)
        t'
  end.

Definition process_emails (self : RuleEngine) (emails : list pyval) (t : nat)
  : list (string * rule_result) * nat :=
  process_from 0 (rules self) emails [] t.

(** *** The loops without their accumulators

    What the three loops compute, written by recursion on the list they
    visit; the properties below relate the loops to them. *)

(** The result of each condition, evaluated in turn. *)
Fixpoint condition_results (conditions : list pyval) (email : pyval) (t : nat)
  : list bool * nat :=
  match conditions with
  | [] => ([], t)
  | condition :: rest =>
      let '(result, t1) := evaluate_condition condition email t in
      let '(results, t2) := condition_results rest email t1 in
      (result :: results, t2)
  end.

(** The records a rule matches, each tried in turn. *)
Fixpoint filter_matching (emails : list pyval) (rule : pyval) (t : nat)
  : list pyval * nat :=
  match emails with
  | [] => ([], t)
  | email :: rest =>
      let '(matched, t1) := evaluate_rule rule email t in
      let '(matching, t2) := filter_matching rest rule t1 in
      (if matched then email :: matching else matching, t2)
  end.

(** One entry per rule, from position [i]. *)
Fixpoint rule_entries (i : nat) (todo emails : list pyval) (t : nat)
  : list (string * rule_result) * nat :=
  match todo with
  | [] => ([], t)
  | rule :: rest =>
      let '(matching, t1) := filter_matching emails rule t in
      let '(entries, t2) := rule_entries (S i) rest emails t1 in
      ((rule_name i, mk_rule_result rule matching (length matching)) :: entries,
       t2)
  end.

(** *** The parts of a date condition

    Names for what [_check_date_condition] computes on the way, to state its
    properties with. *)

(** The datetime [_check_date_condition] compares: the parsed text of the
    record's field, or the field itself when it is not text. *)
Definition received_datetime (email_date : pyval) : option pyval :=
  match email_date with
  | PStr s => PDateTime <$> parser_parse s
  | _ => Some email_date
  end.

(** The number of days a condition value stands for, when it is
    [<int> <unit>] with a unit of days or months. *)
Definition days_of_value (value : pyval) : option Z :=
  match py_split value with
  | Some [number_text; unit_text] =>
      match py_int number_text with
      | Some number =>
          if bool_decide (lower unit_text ∈ ["day"; "days"]) then Some number
          else if bool_decide (lower unit_text ∈ ["month"; "months"])
          then Some (number * 30)
          else None
      | None => None
      end
  | _ => None
  end.

(** The threshold [datetime.now() - timedelta(days=days)] exists when the
    number of days fits a [timedelta] and the result fits a [datetime]. *)
Definition threshold_in_range (now_us days : Z) : Prop :=
  Z.abs days ≤ 999999999 ∧
  0 ≤ now_us - days * us_per_day < max_ordinal * us_per_day.

End Evaluation.

(** ** [_load_rules] statement by statement

    The same method as a machine that runs one statement per step, to see
    what another reader of [self.rules] can observe while a reload is under
    way.  [self.rules] is the only attribute shared with readers; [data],
    [rules] and [valid_rules] are locals of the call.  A step stores to
    [self.rules] at most once, and the store of a list reference is a single
    indivisible action of the interpreter. *)

Inductive load_pc :=
| AtOpen                                    (* before [open] and [json.load] *)
| AtDispatch (data : pyval)                 (* before [isinstance(data, list)] *)
| AtLoop (todo valid_rules : list pyval)    (* at the head of the [for] loop *)
| AtReturn                                  (* the method has returned *)
| AtRaise (e : exn).                        (* an exception has left it *)

Definition load_step (fs : string → read_result) (st : load_pc * RuleEngine)
  : load_pc * RuleEngine :=
  let '(pc, self) := st in
  match pc with
  | AtOpen =>
      match fs (rules_file self) with
      | Return data => (AtDispatch data, self)
      | Raise FileNotFoundError => (AtReturn, mk_engine (rules_file self) [])
      | Raise JSONDecodeError => (AtReturn, mk_engine (rules_file self) [])
      | Raise e => (AtRaise e, self)
      end
  | AtDispatch data =>
      match data with
      | PList candidates => (AtLoop candidates [], self)
      | PDict _ => (AtLoop [data] [], self)
      | _ => (AtReturn, mk_engine (rules_file self) [])
      end
  | AtLoop [] valid_rules => (AtReturn, mk_engine (rules_file self) valid_rules)
  | AtLoop (rule :: rest) valid_rules =>
      (AtLoop rest (if _validate_rule rule then valid_rules ++ [rule] else valid_rules),
       self)
  | AtReturn => (AtReturn, self)
  | AtRaise e => (AtRaise e, self)
  end.

(** The state after [n] steps of a reload that starts on [self]. *)
Definition reload_after (fs : string → read_result) (self : RuleEngine) (n : nat)
  : load_pc * RuleEngine :=
  Nat.iter n (load_step fs) (AtOpen, self).

(** What a reader gets that reads [self.rules] after [n] steps of the
    reload. *)
Definition observed_rules (fs : string → read_result) (self : RuleEngine)
    (n : nat) : list pyval :=
  rules (reload_after fs self n).2.

(** What holds of every state a reload of [self] goes through: until the
    method is left, [self] is as it was, and the locals determine the engine
    [_load_rules] ends with. *)
Definition reload_invariant (fs : string → read_result) (self : RuleEngine)
    (st : load_pc * RuleEngine) : Prop :=
  match st.1 with
  | AtOpen => st.2 = self
  | AtDispatch data => st.2 = self ∧ fs (rules_file self) = Return data
  | AtLoop todo valid_rules =>
      st.2 = self ∧
      _load_rules fs self =
        (mk_engine (rules_file self) (validate_each todo valid_rules), None)
  | AtReturn => _load_rules fs self = (st.2, None)
  | AtRaise e => _load_rules fs self = (st.2, Some e) ∧ st.2 = self
  end.

(** The method is left: it has returned, or an exception has left it. *)
Definition load_finished (pc : load_pc) : bool :=
  match pc with
  | AtReturn | AtRaise _ => true
  | _ => false
  end.

(** ** Structural validity, in the words of the specification

    The three definitions below are not taken from the code: they say what
    a valid action, condition and rule are, to be compared with the
    validators. *)

Inductive action_valid : pyval → Prop :=
| valid_mark_read d b :
    d !! "type" = Some (PStr "mark_read") →
    d !! "value" = Some (PBool b) →
    action_valid (PDict d)
| valid_mark_unread d :
    d !! "type" = Some (PStr "mark_unread") →
    action_valid (PDict d)
| valid_move_message d s :
    d !! "type" = Some (PStr "move_message") →
    d !! "value" = Some (PStr s) →
    action_valid (PDict d).

Inductive condition_valid : pyval → Prop :=
| valid_date_condition d p v :
    d !! "field" = Some (PStr "Received") →
    d !! "predicate" = Some (PStr p) →
    p ∈ ["Less than"; "Greater than"] →
    d !! "value" = Some v →
    condition_valid (PDict d)
| valid_text_condition d f p v :
    d !! "field" = Some (PStr f) →
    f ∈ ["From"; "To"; "Subject"; "Message"] →
    d !! "predicate" = Some (PStr p) →
    p ∈ ["Contains"; "Does not Contain"; "Equals"; "Does not equal"] →
    d !! "value" = Some v →
    condition_valid (PDict d).

Inductive rule_valid : pyval → Prop :=
| valid_rule d p conditions actions :
    d !! "predicate" = Some (PStr p) →
    p ∈ ["All"; "Any"] →
    d !! "conditions" = Some (PList conditions) →
    Forall condition_valid conditions →
    d !! "actions" = Some (PList actions) →
    Forall action_valid actions →
    rule_valid (PDict d).

(** ** Mixed-case variants of a text *)

(** The other case of a letter that has both cases below 256; any other
    character is left alone. *)
Definition swap_case_char (c : ascii) : ascii :=
  let n := nat_of_ascii c in
  if ((65 <=? n) && (n <=? 90) ||
      (192 <=? n) && (n <=? 222) && negb (n =? 215))%nat
  then ascii_of_nat (n + 32)
  else if ((97 <=? n) && (n <=? 122) ||
           (224 <=? n) && (n <=? 254) && negb (n =? 247))%nat
  then ascii_of_nat (n - 32)
  else c.

(** [recase mask s]: [s] with the case of its [i]-th character changed when
    the [i]-th entry of [mask] is [true].  Every way of writing [s] in mixed
    case is [recase mask s] for some [mask]. *)
Fixpoint recase (mask : list bool) (s : string) : string :=
  match mask, s with
  | b :: mask', String c s' =>
      String (if b then swap_case_char c else c) (recase mask' s')
  | _, _ => s
  end.

(** ** [RuleEngine.get_summary]

    The method has no [try]: a KeyError or a TypeError of a subscript or of
    [len] leaves it ([None]). *)

(** [len(v)]; [None] is the TypeError of a value without a length. *)
Definition py_len (v : pyval) : option nat :=
  match v with
  | PStr s => Some (String.length s)
  | PList l => Some (length l)
  | PDict d => Some (size d)
  | _ => None
  end.

(** One element of the summary's ['rules']. *)
Record rule_info := mk_rule_info {
  info_id : nat;
  info_predicate : pyval;
  info_conditions_count : nat;
  info_actions_count : nat;
  info_conditions : pyval;
  info_actions : pyval
}.

Record summary := mk_summary { total_rules : nat; summary_rules : list rule_info }.

(** The dict display of the loop body, its values evaluated in order. *)
Definition rule_info_of (i : nat) (rule : pyval) : option rule_info :=
  predicate ← py_getitem rule "predicate";
  conditions ← py_getitem rule "conditions";
  conditions_count ← py_len conditions;
  actions ← py_getitem rule "actions";
  actions_count ← py_len actions;
  Some (mk_rule_info (i + 1) predicate conditions_count actions_count
          conditions actions).

(** The loop of [get_summary] from position [i]; [infos] is the list it
    appends to. *)
Fixpoint summary_from (i : nat) (todo : list pyval) (infos : list rule_info)
  : option (list rule_info) :=
  match todo with
  | [] => Some infos
  | rule :: rest =>
      info ← rule_info_of i rule;
      summary_from (S i) rest (infos ++ [info])
  end.

Definition get_summary (self : RuleEngine) : option summary :=
  infos ← summary_from 0 (rules self) [];
  Some (mk_summary (length (rules self)) infos).

(** What an element of the summary says of a valid rule. *)
Definition summarizes (rule : pyval) (info : rule_info) : Prop :=
  ∃ p conditions actions,
    py_getitem rule "predicate" = Some (PStr p) ∧
    py_getitem rule "conditions" = Some (PList conditions) ∧
    py_getitem rule "actions" = Some (PList actions) ∧
    p ∈ ["All"; "Any"] ∧
    info_predicate info = PStr p ∧
    info_conditions info = PList conditions ∧
    info_actions info = PList actions ∧
    info_conditions_count info = length conditions ∧
    info_actions_count info = length actions.

(** ** [DatabaseUtils.build_search_query] ([db_utils.py])

    The criteria are a dict, visited by [items()] in insertion order: the
    list of its pairs. *)

Section DatabaseUtils.

Variable py_str_other : pyval → string.

(** [field in FIELD_MAPPING.values()]. *)
Definition is_mapped_column (field : pyval) : bool :=
  existsb (py_eq_str field) (map snd (map_to_list FIELD_MAPPING)).

(** The loop of [build_search_query]; [query] and [params] are what it
    appends to. *)
Fixpoint build_from (items : list (pyval * pyval)) (query : string)
    (params : list string) : string * list string :=
  match items with
  | [] => (query, params)
  | (field, value) :: rest =>
      if is_mapped_column field then
        build_from rest
          (query +:+ " AND " +:+ py_str py_str_other field +:+ " LIKE ?")
          (params ++ ["%" +:+ py_str py_str_other value +:+ "%"])
      else build_from rest query params
  end.

Definition build_search_query (criteria : list (pyval * pyval))
  : string * list string :=
  build_from criteria "SELECT * FROM emails WHERE 1=1" [].

End DatabaseUtils.

(** The number of occurrences of a character in a text. *)
Fixpoint count_char (c : ascii) (s : string) : nat :=
  match s with
  | EmptyString => 0%nat
  | String c' s' => ((if bool_decide (c' = c) then 1 else 0) + count_char c s')%nat
  end.

(** ** A concrete environment for the examples

    An instance of each of the three outside parts.  [isoformat_parse] reads
    the text [datetime.isoformat()] writes, [YYYY-MM-DDTHH:MM:SS[.ffffff]]
    with an optional [+HH:MM] or [-HH:MM] offset, to the datetime
    [parser.parse] returns for it; the fetcher stores the received date in
    this form and the tests use it. *)

Definition is_leap (y : Z) : bool :=
  (y mod 4 =? 0) && (negb (y mod 100 =? 0) || (y mod 400 =? 0)).

Definition days_before_year (y : Z) : Z :=
  (y - 1) * 365 + (y - 1) / 4 - (y - 1) / 100 + (y - 1) / 400.

Definition days_in_month (y m : Z) : Z :=
  if m =? 2 then (if is_leap y then 29 else 28)
  else if (m =? 4) || (m =? 6) || (m =? 9) || (m =? 11) then 30
  else 31.

Definition days_before_month (y m : Z) : Z :=
  fold_right Z.add 0 (map (days_in_month y) (seqZ 1 (m - 1))).

(** The wall-clock reading of a civil date and time, when it is one. *)
Definition civil_us (y m d hh mi ss us : Z) : option Z :=
  if (1 <=? y) && (y <=? 9999) && (1 <=? m) && (m <=? 12) &&
     (1 <=? d) && (d <=? days_in_month y m) &&
     (hh <? 24) && (mi <? 60) && (ss <? 60)
  then Some (((days_before_year y + days_before_month y m + d - 1) * 86400
              + hh * 3600 + mi * 60 + ss) * 1000000 + us)
  else None.

Fixpoint read_digits (n : nat) (acc : Z) (s : string) : option (Z * string) :=
  match n with
  | O => Some (acc, s)
  | S n' =>
      match s with
      | String c s' => d ← digit_val c; read_digits n' (10 * acc + d) s'
      | EmptyString => None
      end
  end.

Definition expect (c : ascii) (s : string) : option string :=
  match s with
  | String c' s' => if bool_decide (c' = c) then Some s' else None
  | EmptyString => None
  end.

Definition read_fraction (s : string) : option (Z * string) :=
  match s with
  | String "." s' => read_digits 6 0 s'
  | _ => Some (0, s)
  end.

Definition read_offset (s : string) : option (option Z) :=
  match s with
  | EmptyString => Some None
  | String c s' =>
      sign ← (if bool_decide (c = "+"%char) then Some 1
              else if bool_decide (c = "-"%char) then Some (-1) else None);
      '(hh, s1) ← read_digits 2 0 s';
      s2 ← expect ":" s1;
      '(mm, s3) ← read_digits 2 0 s2;
      if bool_decide (s3 = EmptyString)
      then Some (Some (sign * (hh * 3600 + mm * 60) * 1000000))
      else None
  end.

Definition isoformat_parse (s : string) : option datetime :=
  '(y, s) ← read_digits 4 0 s;
  s ← expect "-" s;
  '(m, s) ← read_digits 2 0 s;
  s ← expect "-" s;
  '(d, s) ← read_digits 2 0 s;
  s ← expect "T" s;
  '(hh, s) ← read_digits 2 0 s;
  s ← expect ":" s;
  '(mi, s) ← read_digits 2 0 s;
  s ← expect ":" s;
  '(ss, s) ← read_digits 2 0 s;
  '(us, s) ← read_fraction s;
  offset ← read_offset s;
  wall ← civil_us y m d hh mi ss us;
  Some (mk_datetime wall offset).

(** A clock that reads 2026-11-03T12:00:00 first and one second more at each
    further reading. *)
Definition sample_clock (k : nat) : Z :=
  default 0 (civil_us 2026 11 3 12 0 0 0) + Z.of_nat k * 1000000.

(** The examples contain no float, container or datetime whose text is taken;
    this stands for [str] on them. *)
Definition sample_str_other (v : pyval) : string := "?".

(** The rule and the record of the tests ([tests/test_rule_engine.py]). *)
Definition sample_from_condition : gmap string pyval :=
  {[ "field" := PStr "From"; "predicate" := PStr "Contains";
     "value" := PStr "test@example.com" ]}.

Definition sample_subject_condition : gmap string pyval :=
  {[ "field" := PStr "Subject"; "predicate" := PStr "Contains";
     "value" := PStr "important" ]}.

Definition sample_conditions : list pyval :=
  [PDict sample_from_condition; PDict sample_subject_condition].

Definition sample_rule_fields : gmap string pyval :=
  {[ "predicate" := PStr "All";
     "conditions" := PList sample_conditions;
     "actions" := PList [
       PDict {[ "type" := PStr "mark_read"; "value" := PBool true ]} ] ]}.

Definition sample_rule : pyval := PDict sample_rule_fields.

(** A candidate without actions, as in [test_validate_rule_missing_fields]. *)
Definition sample_invalid_rule : pyval :=
  PDict {[ "predicate" := PStr "All"; "conditions" := PList [] ]}.

Definition sample_document : pyval := PList [sample_invalid_rule; sample_rule].

Definition sample_email_fields : gmap string pyval :=
  {[ "id" := PStr "test_email_123";
     "thread_id" := PStr "thread_456";
     "from_address" := PStr "test@example.com";
     "to_address" := PStr "user@gmail.com";
     "subject" := PStr "Important test email";
     "message" := PStr "This is an important test message";
     "received_date" := PStr "2026-11-03T12:00:00";
     "is_read" := PBool false;
     "labels" := PList [PStr "INBOX"; PStr "UNREAD"] ]}.

Definition sample_email : pyval := PDict sample_email_fields.

(** A file system with the document under [rules.json], a file that cannot
    be read under [locked.json], and nothing else. *)
Definition sample_fs (path : string) : read_result :=
  if bool_decide (path = "rules.json") then Return sample_document
  else if bool_decide (path = "locked.json") then Raise PermissionError
  else Raise FileNotFoundError.

Definition sample_engine : RuleEngine := mk_engine "rules.json" [].

(** A condition on the received date, and a record that holds only a
    received date. *)
Definition date_condition (predicate value : string) : gmap string pyval :=
  {[ "field" := PStr "Received"; "predicate" := PStr predicate;
     "value" := PStr value ]}.

Definition received_at (received_date : string) : gmap string pyval :=
  {[ "received_date" := PStr received_date ]}.

(** * Properties *)

#[local] Arguments py_in_strs : simpl never.

(** ** Validation and loading *)


Lemma missing_key_dict required d :
  missing_key required (PDict d) =
  Some (negb (forallb (fun k => bool_decide (is_Some (d !! k))) required)).
Proof.
  induction required as [|k ks IH]; simpl; [done|].
  destruct (bool_decide (is_Some (d !! k))); simpl; [exact IH | done].
Qed.

Lemma py_eq_str_true v s : py_eq_str v s = true ↔ v = PStr s.
Proof.
  destruct v; simpl; try (split; [discriminate | intros [=]]).
  rewrite bool_decide_eq_true. split; [by intros -> | by intros [= ->]].
Qed.

Lemma py_in_strs_true v l : py_in_strs v l = true ↔ ∃ s, v = PStr s ∧ s ∈ l.
Proof.
  unfold py_in_strs. rewrite existsb_exists. split.
  - intros (s & Hin & Heq). apply py_eq_str_true in Heq. exists s.
    split; [done | by apply list_elem_of_In].
  - intros (s & -> & Hin). exists s. split; [by apply list_elem_of_In |].
    by apply py_eq_str_true.
Qed.

Lemma FIELD_MAPPING_is_Some f :
  is_Some (FIELD_MAPPING !! f) ↔ f ∈ ["From"; "To"; "Subject"; "Message"; "Received"].
Proof.
  unfold FIELD_MAPPING. rewrite !lookup_insert_is_Some', lookup_singleton_is_Some.
  rewrite !elem_of_cons, elem_of_nil. intuition.
Qed.

Lemma getitem_not_dict v k : (∀ d, v ≠ PDict d) → py_getitem v k = None.
Proof. intros Hv. destruct v; try done. by destruct (Hv d). Qed.

Lemma validate_condition_not_dict v :
  (∀ d, v ≠ PDict d) → _validate_condition v = false.
Proof.
  intros Hv. unfold _validate_condition, _validate_condition_body.
  destruct (missing_key _ v) as [[]|]; simpl; try done.
  by rewrite (getitem_not_dict v "field" Hv).
Qed.

Lemma validate_action_not_dict v :
  (∀ d, v ≠ PDict d) → _validate_action v = false.
Proof.
  intros Hv. unfold _validate_action, _validate_action_body.
  destruct (py_in "type" v) as [[]|]; simpl; try done.
  by rewrite (getitem_not_dict v "type" Hv).
Qed.

Lemma validate_rule_not_dict v :
  (∀ d, v ≠ PDict d) → _validate_rule v = false.
Proof.
  intros Hv. unfold _validate_rule, _validate_rule_body.
  destruct (missing_key _ v) as [[]|]; simpl; try done.
  by rewrite (getitem_not_dict v "predicate" Hv).
Qed.

Lemma validate_condition_iff c :
  _validate_condition c = true ↔ condition_valid c.
Proof.
  split.
  - intros Hc.
    destruct c as [| | | | | |d|];
      try (rewrite validate_condition_not_dict in Hc; [discriminate | done]).
    revert Hc. unfold _validate_condition, _validate_condition_body.
    rewrite missing_key_dict. simpl.
    destruct (d !! "field") as [f|] eqn:Hf; [|done].
    destruct (d !! "predicate") as [p|] eqn:Hp; [|done].
    destruct (d !! "value") as [v|] eqn:Hv; [|done].
    simpl.
    destruct (py_dict_contains FIELD_MAPPING f) as [known|] eqn:Hk; [|done].
    simpl. destruct known; [|done]. simpl.
    destruct f as [| | | |f| | |]; try discriminate.
    simpl in Hk. injection Hk as Hk. apply bool_decide_eq_true in Hk.
    apply FIELD_MAPPING_is_Some in Hk.
    destruct (py_eq_str (PStr f) "Received") eqn:Hr.
    + apply py_eq_str_true in Hr. injection Hr as ->.
      destruct (py_in_strs p DATE_PREDICATES) eqn:Hd; [|done].
      apply py_in_strs_true in Hd as (s & -> & Hs). intros _.
      by eapply valid_date_condition.
    + destruct (py_in_strs p STRING_PREDICATES) eqn:Hd; [|done].
      apply py_in_strs_true in Hd as (s & -> & Hs). intros _.
      eapply valid_text_condition; try done.
      assert (f ≠ "Received") by (intros ->; by vm_compute in Hr).
      revert Hk. rewrite !elem_of_cons, !elem_of_nil. intuition.
  - intros [d p v Hf Hp Hin Hv | d f p v Hf Hfin Hp Hin Hv];
      unfold _validate_condition, _validate_condition_body;
      rewrite missing_key_dict; simpl; rewrite Hf, Hp, Hv; simpl.
    + assert (py_in_strs (PStr p) DATE_PREDICATES = true) as ->
        by (apply py_in_strs_true; eauto).
      done.
    + assert (bool_decide (is_Some (FIELD_MAPPING !! f)) = true) as ->.
      { apply bool_decide_eq_true, FIELD_MAPPING_is_Some.
        revert Hfin. rewrite !elem_of_cons, !elem_of_nil. intuition. }
      simpl.
      assert (bool_decide (f = "Received") = false) as ->.
      { apply bool_decide_eq_false. intros ->.
        revert Hfin. rewrite !elem_of_cons, !elem_of_nil. intuition discriminate. }
      assert (py_in_strs (PStr p) STRING_PREDICATES = true) as ->
        by (apply py_in_strs_true; eauto).
      done.
Qed.

Lemma validate_action_iff a :
  _validate_action a = true ↔ action_valid a.
Proof.
  split.
  - intros Ha.
    destruct a as [| | | | | |d|];
      try (rewrite validate_action_not_dict in Ha; [discriminate | done]).
    revert Ha. unfold _validate_action, _validate_action_body. simpl.
    destruct (d !! "type") as [ty|] eqn:Hty; [|done]. simpl.
    destruct (py_in_strs ty ACTIONS) eqn:Hin; [|done]. simpl.
    apply py_in_strs_true in Hin as (s & -> & Hs).
    unfold ACTIONS in Hs. rewrite !elem_of_cons, elem_of_nil in Hs.
    destruct Hs as [-> | [-> | [-> | []]]]; simpl.
    + intros _. by apply valid_mark_unread.
    + destruct (d !! "value") as [v|] eqn:Hv; [|done]. simpl.
      destruct v; try done. intros _. by eapply valid_mark_read.
    + destruct (d !! "value") as [v|] eqn:Hv; [|done]. simpl.
      destruct v; try done. intros _. by eapply valid_move_message.
  - intros [d b Hty Hv | d Hty | d s Hty Hv];
      unfold _validate_action, _validate_action_body; simpl;
      rewrite Hty; simpl; rewrite ?Hv; done.
Qed.

Lemma forallb_validate {A} (f : A → bool) (P : A → Prop) l :
  (∀ x, f x = true ↔ P x) → forallb f l = true ↔ Forall P l.
Proof.
  intros Hf. rewrite forallb_forall, Forall_forall.
  split; intros H x Hx; apply Hf, H; by apply list_elem_of_In.
Qed.

Lemma validate_rule_iff r :
  _validate_rule r = true ↔ rule_valid r.
Proof.
  split.
  - intros Hr.
    destruct r as [| | | | | |d|];
      try (rewrite validate_rule_not_dict in Hr; [discriminate | done]).
    revert Hr. unfold _validate_rule, _validate_rule_body.
    rewrite missing_key_dict. simpl.
    destruct (d !! "predicate") as [p|] eqn:Hp; [|done].
    destruct (d !! "conditions") as [cs|] eqn:Hcs; [|done].
    destruct (d !! "actions") as [acts|] eqn:Hacts; [|done].
    simpl.
    destruct (py_in_strs p ["All"; "Any"]) eqn:Hin; [|done]. simpl.
    apply py_in_strs_true in Hin as (s & -> & Hs).
    destruct cs as [| | | | |cs| |]; try done.
    destruct (forallb _validate_condition cs) eqn:Hvc; [|done]. simpl.
    destruct acts as [| | | | |acts| |]; try done.
    destruct (forallb _validate_action acts) eqn:Hva; [|done]. intros _.
    eapply valid_rule; try done.
    + by apply (forallb_validate _ _ _ validate_condition_iff).
    + by apply (forallb_validate _ _ _ validate_action_iff).
  - intros [d p cs acts Hp Hin Hcs Hvc Hacts Hva].
    unfold _validate_rule, _validate_rule_body.
    rewrite missing_key_dict. simpl. rewrite Hp, Hcs, Hacts. simpl.
    assert (py_in_strs (PStr p) ["All"; "Any"] = true) as ->
      by (apply py_in_strs_true; eauto).
    simpl.
    apply (forallb_validate _ _ _ validate_condition_iff) in Hvc as ->.
    apply (forallb_validate _ _ _ validate_action_iff) in Hva as ->.
    done.
Qed.

Lemma validate_each_filter candidates valid_rules :
  validate_each candidates valid_rules =
  (valid_rules ++ List.filter _validate_rule candidates)%list.
Proof.
  revert valid_rules.
  induction candidates as [|r rest IH]; intros acc; simpl.
  - by rewrite app_nil_r.
  - destruct (_validate_rule r); rewrite IH; [by rewrite <- app_assoc | done].
Qed.

Lemma load_rules_document fs self doc candidates :
  fs (rules_file self) = Return doc →
  doc = PList candidates ∨ (candidates = [doc] ∧ ∃ d, doc = PDict d) →
  _load_rules fs self =
  (mk_engine (rules_file self) (List.filter _validate_rule candidates), None).
Proof.
  intros Hfs Hdoc. unfold _load_rules. rewrite Hfs.
  destruct Hdoc as [-> | [-> [d ->]]]; by rewrite validate_each_filter.
Qed.

Lemma sublist_filter {A} (f : A → bool) (l : list A) : sublist (List.filter f l) l.
Proof.
  induction l as [|x l IH]; simpl; [constructor|].
  destruct (f x); by constructor.
Qed.

(** Claim C1.  Whether the document is a list of candidate rules or one
    rule object, the rules the engine holds after [_load_rules] are exactly
    the candidates that pass [_validate_rule], in the order of the document
    and unchanged; and [_validate_rule] accepts a candidate exactly when it
    is structurally valid in the words of the specification: a dict with the
    keys predicate, conditions and actions, whose predicate is All or Any,
    whose conditions are a list of valid conditions and whose actions are a
    list of valid actions. *)
Theorem load_keeps_exactly_the_valid_rules
    (fs : string → read_result) (self : RuleEngine) (doc : pyval)
    (candidates : list pyval)
    (Hread : fs (rules_file self) = Return doc)
    (Hdoc : doc = PList candidates ∨ (candidates = [doc] ∧ ∃ d, doc = PDict d)) :
  let loaded := rules (_load_rules fs self).1 in
  (∀ r, _validate_rule r = true ↔ rule_valid r) ∧
  loaded = List.filter _validate_rule candidates ∧
  (∀ r, r ∈ loaded ↔ r ∈ candidates ∧ rule_valid r) ∧
  sublist loaded candidates.
Proof.
  intros loaded. subst loaded.
  rewrite (load_rules_document _ _ _ _ Hread Hdoc). simpl.
  split; [exact validate_rule_iff|]. split; [done|]. split.
  - intros r. rewrite list_elem_of_In, filter_In, <- list_elem_of_In.
    by rewrite validate_rule_iff.
  - apply sublist_filter.
Qed.

(** ** Keys the validators do not read *)

Lemma validate_condition_extra_key (d : gmap string pyval) k x :
  k ∉ ["field"; "predicate"; "value"] →
  _validate_condition (PDict (<[k:=x]> d)) = _validate_condition (PDict d).
Proof.
  rewrite !not_elem_of_cons. intros (Hf & Hp & Hv & _).
  unfold _validate_condition, _validate_condition_body.
  rewrite !missing_key_dict. simpl.
  by rewrite !lookup_insert_ne by done.
Qed.

Lemma validate_action_extra_key (d : gmap string pyval) k x :
  k ∉ ["type"; "value"] →
  _validate_action (PDict (<[k:=x]> d)) = _validate_action (PDict d).
Proof.
  rewrite !not_elem_of_cons. intros (Ht & Hv & _).
  unfold _validate_action, _validate_action_body. simpl.
  by rewrite !lookup_insert_ne by done.
Qed.

Lemma validate_rule_extra_key (d : gmap string pyval) k x :
  k ∉ ["predicate"; "conditions"; "actions"] →
  _validate_rule (PDict (<[k:=x]> d)) = _validate_rule (PDict d).
Proof.
  rewrite !not_elem_of_cons. intros (Hp & Hc & Ha & _).
  unfold _validate_rule, _validate_rule_body.
  rewrite !missing_key_dict. simpl.
  by rewrite !lookup_insert_ne by done.
Qed.

Lemma validate_mark_unread_with_value (d : gmap string pyval) x :
  d !! "type" = Some (PStr "mark_unread") →
  _validate_action (PDict (<["value":=x]> d)) = true.
Proof.
  intros Ht. unfold _validate_action, _validate_action_body. simpl.
  rewrite lookup_insert_ne by done. by rewrite Ht.
Qed.

Lemma load_rules_keeps_valid fs self doc candidates r :
  fs (rules_file self) = Return doc →
  doc = PList candidates ∨ (candidates = [doc] ∧ ∃ d, doc = PDict d) →
  r ∈ candidates → _validate_rule r = true →
  r ∈ rules (_load_rules fs self).1.
Proof.
  intros Hfs Hdoc Hin Hvalid.
  rewrite (load_rules_document _ _ _ _ Hfs Hdoc). simpl.
  apply list_elem_of_In, filter_In. split; [by apply list_elem_of_In | done].
Qed.

(** ** Reloading, step by step *)

Lemma reload_invariant_step fs self st :
  reload_invariant fs self st → reload_invariant fs self (load_step fs st).
Proof.
  destruct st as [pc s]. unfold reload_invariant. simpl.
  destruct pc as [|data|todo valid| |e]; simpl.
  - intros ->. unfold _load_rules.
    destruct (fs (rules_file self)) as [[]|data]; simpl; try done.
  - intros [-> Hfs]. unfold _load_rules. rewrite Hfs.
    destruct data; simpl; done.
  - intros [-> Hload]. destruct todo as [|rule rest]; simpl; [done|].
    split; [done|]. rewrite Hload. simpl. by destruct (_validate_rule rule).
  - done.
  - done.
Qed.

Lemma reload_after_S fs self n :
  reload_after fs self (S n) = load_step fs (reload_after fs self n).
Proof. done. Qed.

Lemma reload_invariant_holds fs self n :
  reload_invariant fs self (reload_after fs self n).
Proof.
  induction n as [|n IH]; [done|].
  rewrite reload_after_S. by apply reload_invariant_step.
Qed.

Lemma load_step_finished fs st :
  load_finished st.1 = true → load_step fs st = st.
Proof. destruct st as [[] s]; simpl; done. Qed.

Lemma iter_finished fs st n :
  load_finished st.1 = true → Nat.iter n (load_step fs) st = st.
Proof.
  intros Hf. induction n as [|n IH]; simpl; [done|].
  rewrite IH. by apply load_step_finished.
Qed.

Lemma iter_loop_finishes fs s todo valid_rules :
  load_finished
    (Nat.iter (S (length todo)) (load_step fs) (AtLoop todo valid_rules, s)).1 = true.
Proof.
  revert valid_rules. induction todo as [|rule rest IH]; intros valid_rules.
  - done.
  - cbn [length]. rewrite Nat.iter_succ_r. cbn [load_step]. apply IH.
Qed.

Lemma reload_finishes fs self :
  ∃ n, load_finished (reload_after fs self n).1 = true.
Proof.
  unfold reload_after.
  destruct (fs (rules_file self)) as [e|data] eqn:Hfs.
  - exists 1%nat. simpl. rewrite Hfs. by destruct e.
  - assert (∀ todo, ∃ n, load_finished
      (Nat.iter n (load_step fs) (AtLoop todo [], self)).1 = true) as Hloop.
    { intros todo. eexists. apply iter_loop_finishes. }
    destruct data.
    all: try (exists 2%nat; simpl; by rewrite Hfs).
    + destruct (Hloop l) as [n Hn]. exists (n + 2)%nat.
      rewrite Nat.iter_add. simpl. by rewrite Hfs.
    + destruct (Hloop [PDict d]) as [n Hn]. exists (n + 2)%nat.
      rewrite Nat.iter_add. simpl. by rewrite Hfs.
Qed.

Lemma reload_after_finished fs self n m :
  load_finished (reload_after fs self n).1 = true → (n ≤ m)%nat →
  reload_after fs self m = reload_after fs self n.
Proof.
  intros Hf Hle. replace m with ((m - n) + n)%nat by lia.
  unfold reload_after. rewrite Nat.iter_add. by apply iter_finished.
Qed.

(** Claim C8.  [reload_rules] runs [_load_rules], and a reader that reads
    [self.rules] at any moment of the reload, after any number [n] of its
    steps, gets the list the engine held before the reload or the list it
    holds after it, whole: never a list in between, and never a number of
    rules other than the old one or the new one.  The reload ends, and from
    then on the engine is the one [reload_rules] returns. *)
Theorem reload_is_observed_atomically
    (fs : string → read_result) (self : RuleEngine) (n : nat) :
  let old := rules self in
  let new := rules (reload_rules fs self).1 in
  (observed_rules fs self n = old ∨ observed_rules fs self n = new) ∧
  (length (observed_rules fs self n) = length old ∨
   length (observed_rules fs self n) = length new) ∧
  (∃ steps, ∀ m, (steps ≤ m)%nat →
     load_finished (reload_after fs self m).1 = true ∧
     (reload_after fs self m).2 = (reload_rules fs self).1).
Proof.
  intros old new. subst old new. unfold reload_rules.
  assert (observed_rules fs self n = rules self ∨
          observed_rules fs self n = rules (_load_rules fs self).1) as Hobs.
  { unfold observed_rules.
    pose proof (reload_invariant_holds fs self n) as Hinv.
    unfold reload_invariant in Hinv.
    destruct (reload_after fs self n) as [pc s]. simpl in *.
    destruct pc; simpl in Hinv.
    - left. by rewrite Hinv.
    - left. by destruct Hinv as [-> _].
    - left. by destruct Hinv as [-> _].
    - right. by rewrite Hinv.
    - right. by destruct Hinv as [-> _]. }
  split; [done|]. split; [destruct Hobs as [-> | ->]; auto|].
  destruct (reload_finishes fs self) as [k Hk]. exists k. intros m Hm.
  rewrite (reload_after_finished fs self k m Hk Hm). split; [done|].
  pose proof (reload_invariant_holds fs self k) as Hinv.
  unfold reload_invariant in Hinv.
  destruct (reload_after fs self k) as [pc s]. simpl in *.
  destruct pc; try done; simpl in Hinv.
  - by rewrite Hinv.
  - by destruct Hinv as [-> _].
Qed.

(** ** Text *)

Lemma FIELD_MAPPING_nonempty f db : FIELD_MAPPING !! f = Some db → db ≠ "".
Proof.
  intros Hdb.
  assert (is_Some (FIELD_MAPPING !! f)) as Hf by by rewrite Hdb.
  apply FIELD_MAPPING_is_Some in Hf. revert Hf Hdb.
  rewrite !elem_of_cons, elem_of_nil.
  intros [-> | [-> | [-> | [-> | [-> | []]]]]]; by intros [= <-].
Qed.

Lemma lower_char_idem c : lower_char (lower_char c) = lower_char c.
Proof. destruct c as [[] [] [] [] [] [] [] []]; reflexivity. Qed.

Lemma lower_char_swap_case c : lower_char (swap_case_char c) = lower_char c.
Proof. destruct c as [[] [] [] [] [] [] [] []]; reflexivity. Qed.

Lemma lower_idem s : lower (lower s) = lower s.
Proof. induction s as [|c s IH]; simpl; [done|]. by rewrite lower_char_idem, IH. Qed.

Lemma lower_recase mask s : lower (recase mask s) = lower s.
Proof.
  revert s. induction mask as [|b mask IH]; intros [|c s]; simpl; try done.
  rewrite IH. by destruct b; rewrite ?lower_char_swap_case.
Qed.

(** ** Evaluation *)

Section EvaluationProperties.


Variable parser_parse : string → option datetime.
Variable py_str_other : pyval → string.
Variable clock : nat → Z.

#[local] Abbreviation py_str := (py_str py_str_other).
#[local] Abbreviation _check_string_condition := (_check_string_condition py_str_other).
#[local] Abbreviation compare_with_threshold := (compare_with_threshold clock).
#[local] Abbreviation _check_date_condition := (_check_date_condition parser_parse clock).
#[local] Abbreviation received_datetime := (received_datetime parser_parse).
#[local] Abbreviation evaluate_condition := (evaluate_condition parser_parse py_str_other clock).
#[local] Abbreviation collect_results := (collect_results parser_parse py_str_other clock).
#[local] Abbreviation condition_results := (condition_results parser_parse py_str_other clock).
#[local] Abbreviation evaluate_rule := (evaluate_rule parser_parse py_str_other clock).
#[local] Abbreviation matching_from := (matching_from parser_parse py_str_other clock).
#[local] Abbreviation get_matching_emails := (get_matching_emails parser_parse py_str_other clock).
#[local] Abbreviation filter_matching := (filter_matching parser_parse py_str_other clock).
#[local] Abbreviation process_from := (process_from parser_parse py_str_other clock).
#[local] Abbreviation process_emails := (process_emails parser_parse py_str_other clock).
#[local] Abbreviation rule_entries := (rule_entries parser_parse py_str_other clock).

Lemma collect_results_spec conditions email results t :
  collect_results conditions email results t =
  ((results ++ (condition_results conditions email t).1)%list,
   (condition_results conditions email t).2).
Proof.
  revert results t.
  induction conditions as [|c rest IH]; intros results t; simpl.
  - by rewrite app_nil_r.
  - destruct (evaluate_condition c email t) as [r t1].
    rewrite IH. destruct (condition_results rest email t1) as [rs t2]. simpl.
    by rewrite <- app_assoc.
Qed.

Lemma condition_results_length conditions email t :
  length (condition_results conditions email t).1 = length conditions.
Proof.
  revert t. induction conditions as [|c rest IH]; intros t; simpl; [done|].
  destruct (evaluate_condition c email t) as [r t1].
  specialize (IH t1). destruct (condition_results rest email t1) as [rs t2].
  simpl in *. by rewrite IH.
Qed.

(** A rule with a list of conditions that is not empty: the loop runs and
    the predicate combines what it collected. *)
Lemma evaluate_rule_nonempty (d : gmap string pyval) predicate c rest email t :
  d !! "predicate" = Some predicate →
  d !! "conditions" = Some (PList (c :: rest)) →
  evaluate_rule (PDict d) email t =
  (if py_eq_str predicate "All"
   then forallb id (condition_results (c :: rest) email t).1
   else if py_eq_str predicate "Any"
   then existsb id (condition_results (c :: rest) email t).1
   else false,
   (condition_results (c :: rest) email t).2).
Proof.
  intros Hp Hc. unfold evaluate_rule.
  cbn [py_getitem]. rewrite Hp, Hc.
  cbn [mbind option_bind py_truthy negb py_iter].
  rewrite collect_results_spec. cbn [app].
  by repeat case_match.
Qed.

(** Claim C2.  For a rule with a predicate and a list of conditions,
    [evaluate_rule] answers False when the list is empty, whatever the
    predicate; for a list that is not empty it answers the conjunction of
    the results of the conditions under All, their disjunction under Any,
    and False under any other predicate.  The results are those of the
    conditions evaluated in turn, one per condition. *)
Theorem evaluate_rule_combines_conditions
    (d : gmap string pyval) (predicate : pyval) (conditions : list pyval)
    (email : pyval) (t : nat)
    (Hpredicate : d !! "predicate" = Some predicate)
    (Hconditions : d !! "conditions" = Some (PList conditions)) :
  let results := (condition_results conditions email t).1 in
  let t' := (condition_results conditions email t).2 in
  length results = length conditions ∧
  (conditions = [] → evaluate_rule (PDict d) email t = (false, t)) ∧
  (conditions ≠ [] → predicate = PStr "All" →
     evaluate_rule (PDict d) email t = (forallb id results, t')) ∧
  (conditions ≠ [] → predicate = PStr "Any" →
     evaluate_rule (PDict d) email t = (existsb id results, t')) ∧
  (conditions ≠ [] → predicate ≠ PStr "All" → predicate ≠ PStr "Any" →
     evaluate_rule (PDict d) email t = (false, t')).
Proof.
  intros results t'. subst results t'.
  split; [apply condition_results_length|].
  split.
  { intros ->. unfold evaluate_rule. simpl.
    by rewrite Hpredicate, Hconditions. }
  destruct conditions as [|c rest].
  { by repeat split. }
  rewrite (evaluate_rule_nonempty d predicate c rest email t Hpredicate Hconditions).
  split; [by intros _ ->|]. split; [by intros _ ->|].
  intros _ HnAll HnAny.
  destruct (py_eq_str predicate "All") eqn:E1.
  { by apply py_eq_str_true in E1. }
  destruct (py_eq_str predicate "Any") eqn:E2.
  { by apply py_eq_str_true in E2. }
  done.
Qed.


(** A condition on a text field of a record reaches
    [_check_string_condition] with the value the record holds for the field,
    or with the empty text when the record has no such key. *)
Lemma evaluate_condition_text (d e : gmap string pyval) f db p v t :
  d !! "field" = Some (PStr f) →
  d !! "predicate" = Some p →
  d !! "value" = Some v →
  FIELD_MAPPING !! f = Some db →
  f ≠ "Received" →
  evaluate_condition (PDict d) (PDict e) t =
  (_check_string_condition (default (PStr "") (e !! db)) p v, t).
Proof.
  intros Hf Hp Hv Hdb Hne.
  unfold evaluate_condition. simpl.
  rewrite Hf, Hp, Hv. simpl. rewrite Hdb. simpl.
  rewrite (bool_decide_eq_false_2 (db = "")) by by eapply FIELD_MAPPING_nonempty.
  rewrite (bool_decide_eq_false_2 (f = "Received")) by done.
  simpl. by destruct (e !! db).
Qed.


Lemma check_string_condition_lower x p y :
  _check_string_condition (PStr (lower x)) p (PStr (lower y)) =
  _check_string_condition (PStr x) p (PStr y).
Proof.
  unfold _check_string_condition. simpl.
  by rewrite !lower_idem.
Qed.




(** *** Date conditions *)

Lemma compare_with_threshold_naive w predicate days t :
  threshold_in_range (clock t) days →
  compare_with_threshold (PDateTime (mk_datetime w None)) predicate days t =
  (if py_eq_str predicate "Less than" then w <? clock t - days * us_per_day
   else if py_eq_str predicate "Greater than" then clock t - days * us_per_day <? w
   else false, S t).
Proof.
  intros [Hdays [Hlo Hhi]].
  unfold compare_with_threshold, now,
    timedelta_days, datetime_sub. simpl.
  rewrite (proj2 (Z.leb_le _ _) Hdays). simpl.
  rewrite (proj2 (Z.leb_le _ _) Hlo), (proj2 (Z.ltb_lt _ _) Hhi). simpl.
  by repeat case_match.
Qed.

Lemma compare_with_threshold_out_of_range v predicate days t :
  ¬ threshold_in_range (clock t) days →
  compare_with_threshold v predicate days t = (false, S t).
Proof.
  intros Hout.
  unfold compare_with_threshold, now,
    timedelta_days, datetime_sub. simpl.
  destruct (Z.abs days <=? 999999999) eqn:Hdays; simpl; [|done].
  destruct (0 <=? clock t - days * us_per_day) eqn:Hlo; simpl; [|done].
  destruct (clock t - days * us_per_day <? max_ordinal * us_per_day) eqn:Hhi;
    simpl; [|done].
  destruct Hout. unfold threshold_in_range. lia.
Qed.

Lemma compare_with_threshold_aware w offset predicate days t :
  compare_with_threshold (PDateTime (mk_datetime w (Some offset))) predicate days t =
  (false, S t).
Proof.
  unfold compare_with_threshold, now,
    timedelta_days, datetime_sub. simpl.
  destruct (Z.abs days <=? 999999999); simpl; [|done].
  destruct (_ && _); simpl; [|done].
  by repeat case_match.
Qed.

Lemma check_date_condition_unfold email_date predicate value t :
  _check_date_condition email_date predicate value t =
  match received_datetime email_date with
  | None => (false, t)
  | Some email_datetime =>
      match days_of_value value with
      | None => (false, t)
      | Some days => compare_with_threshold email_datetime predicate days t
      end
  end.
Proof.
  unfold _check_date_condition,
    received_datetime, days_of_value.
  destruct (match email_date with PStr s => _ | _ => _ end); [|done].
  destruct (py_split value) as [[|a [|b [|c parts]]]|]; try done.
  destruct (py_int a); [|done].
  by repeat case_match.
Qed.

(** A condition value that is not [<int> <unit>] with a known unit: the
    condition is false and the clock is not read. *)
Lemma check_date_condition_rejects email_date predicate value t :
  days_of_value value = None →
  _check_date_condition email_date predicate value t = (false, t).
Proof.
  intros Hv. rewrite check_date_condition_unfold, Hv.
  by destruct (received_datetime email_date).
Qed.

(** A naive received timestamp and a threshold in range: Less than holds
    exactly when the timestamp is before the threshold, Greater than
    exactly when it is after it. *)
Lemma check_date_condition_naive email_date w predicate value days t :
  received_datetime email_date = Some (PDateTime (mk_datetime w None)) →
  days_of_value value = Some days →
  threshold_in_range (clock t) days →
  _check_date_condition email_date predicate value t =
  (if py_eq_str predicate "Less than" then w <? clock t - days * us_per_day
   else if py_eq_str predicate "Greater than" then clock t - days * us_per_day <? w
   else false, S t).
Proof.
  intros Hd Hv Hr. rewrite check_date_condition_unfold, Hd, Hv.
  by apply compare_with_threshold_naive.
Qed.

(** A threshold out of range: the subtraction raises and the condition is
    false. *)
Lemma check_date_condition_out_of_range email_date v predicate value days t :
  received_datetime email_date = Some v →
  days_of_value value = Some days →
  ¬ threshold_in_range (clock t) days →
  _check_date_condition email_date predicate value t = (false, S t).
Proof.
  intros Hd Hv Hr. rewrite check_date_condition_unfold, Hd, Hv.
  by apply compare_with_threshold_out_of_range.
Qed.

(** A timezone-aware received timestamp: the comparison with the naive
    threshold raises, and the condition is false whatever the predicate and
    the value. *)
Lemma check_date_condition_aware email_date w offset predicate value t :
  received_datetime email_date = Some (PDateTime (mk_datetime w (Some offset))) →
  (_check_date_condition email_date predicate value t).1 = false.
Proof.
  intros Hd. rewrite check_date_condition_unfold, Hd.
  destruct (days_of_value value); [|done].
  by rewrite compare_with_threshold_aware.
Qed.

(** A condition on Received reaches [_check_date_condition] with the value
    the record holds for [received_date]. *)
Lemma evaluate_condition_date (d e : gmap string pyval) p v t :
  d !! "field" = Some (PStr "Received") →
  d !! "predicate" = Some p →
  d !! "value" = Some v →
  evaluate_condition (PDict d) (PDict e) t =
  _check_date_condition (default (PStr "") (e !! "received_date")) p v t.
Proof.
  intros Hf Hp Hv.
  unfold evaluate_condition. simpl.
  rewrite Hf, Hp, Hv. simpl.
  replace (FIELD_MAPPING !! "Received") with (Some "received_date") by done.
  simpl. by destruct (e !! "received_date").
Qed.

(** *** Matching and processing *)

Lemma matching_from_spec emails rule matching t :
  matching_from emails rule matching t =
  ((matching ++ (filter_matching emails rule t).1)%list,
   (filter_matching emails rule t).2).
Proof.
  revert matching t.
  induction emails as [|email rest IH]; intros matching t; simpl.
  - by rewrite app_nil_r.
  - destruct (evaluate_rule rule email t) as [matched t1].
    rewrite IH. destruct (filter_matching rest rule t1) as [ms t2]. simpl.
    destruct matched; [by rewrite <- app_assoc | done].
Qed.

Lemma filter_matching_sublist emails rule t :
  sublist (filter_matching emails rule t).1 emails.
Proof.
  revert t. induction emails as [|email rest IH]; intros t; simpl; [constructor|].
  destruct (evaluate_rule rule email t) as [matched t1].
  specialize (IH t1). destruct (filter_matching rest rule t1) as [ms t2].
  simpl in *. destruct matched; by constructor.
Qed.

Lemma dict_setitem_fresh {A} (key : string) (value : A) d :
  key ∉ map fst d → dict_setitem key value d = (d ++ [(key, value)])%list.
Proof.
  induction d as [|[k v] d IH]; simpl; [done|].
  rewrite not_elem_of_cons. intros [Hne Hnot].
  rewrite bool_decide_eq_false_2 by done. by rewrite IH.
Qed.

Lemma rule_name_inj i j : rule_name i = rule_name j → i = j.
Proof.
  unfold rule_name. intros H.
  apply (inj (String.app "rule_")) in H. apply (inj pretty) in H. lia.
Qed.

Lemma rule_entries_keys i todo emails t :
  map fst (rule_entries i todo emails t).1 = map rule_name (seq i (length todo)).
Proof.
  revert i t. induction todo as [|rule rest IH]; intros i t; simpl; [done|].
  destruct (filter_matching emails rule t) as [ms t1].
  specialize (IH (S i) t1).
  destruct (rule_entries (S i) rest emails t1) as [entries t2].
  simpl in *. by rewrite IH.
Qed.

Lemma process_from_spec i todo emails results t :
  (∀ key, key ∈ map fst results → ∃ j, (j < i)%nat ∧ key = rule_name j) →
  process_from i todo emails results t =
  ((results ++ (rule_entries i todo emails t).1)%list,
   (rule_entries i todo emails t).2).
Proof.
  revert i results t.
  induction todo as [|rule rest IH]; intros i results t Hkeys; simpl.
  - by rewrite app_nil_r.
  - unfold get_matching_emails.
    rewrite matching_from_spec. simpl.
    destruct (filter_matching emails rule t) as [ms t1]. simpl.
    rewrite dict_setitem_fresh.
    2:{ intros Hin. destruct (Hkeys _ Hin) as (j & Hj & Heq).
        apply rule_name_inj in Heq. lia. }
    rewrite IH.
    + destruct (rule_entries (S i) rest emails t1) as [entries t2]. simpl.
      by rewrite <- app_assoc.
    + intros key. rewrite map_app, elem_of_app. simpl.
      rewrite list_elem_of_singleton. intros [Hin | ->].
      * destruct (Hkeys _ Hin) as (j & Hj & ->). exists j. split; [lia | done].
      * exists i. split; [lia | done].
Qed.

(** *** With the clock held still

    When every reading of the clock is the same, the answer of a condition
    or of a rule does not depend on how many readings were made before, and
    the records a rule matches are those [List.filter] keeps. *)

Lemma compare_with_threshold_frozen v predicate days t t' :
  clock t = clock t' →
  (compare_with_threshold v predicate days t).1 =
  (compare_with_threshold v predicate days t').1.
Proof.
  intros Hc. unfold compare_with_threshold, now.
  rewrite Hc. by repeat case_match.
Qed.

Lemma evaluate_condition_frozen condition email t t' :
  clock t = clock t' →
  (evaluate_condition condition email t).1 =
  (evaluate_condition condition email t').1.
Proof.
  intros Hc. unfold evaluate_condition.
  repeat case_match; try done.
  rewrite !check_date_condition_unfold.
  repeat case_match; try done.
  by apply compare_with_threshold_frozen.
Qed.

Lemma condition_results_frozen conditions email t t' :
  (∀ k, clock k = clock 0) →
  (condition_results conditions email t).1 =
  (condition_results conditions email t').1.
Proof.
  intros Hc. revert t t'.
  induction conditions as [|c rest IH]; intros t t'; simpl; [done|].
  pose proof (evaluate_condition_frozen c email t t') as Hr.
  destruct (evaluate_condition c email t) as [r t1].
  destruct (evaluate_condition c email t') as [r' t1'].
  specialize (IH t1 t1').
  destruct (condition_results rest email t1) as [rs t2].
  destruct (condition_results rest email t1') as [rs' t2'].
  simpl in *. rewrite Hr, IH; [done|]. by rewrite (Hc t), (Hc t').
Qed.

Lemma evaluate_rule_frozen rule email t t' :
  (∀ k, clock k = clock 0) →
  (evaluate_rule rule email t).1 = (evaluate_rule rule email t').1.
Proof.
  intros Hc. unfold evaluate_rule.
  destruct (_ ≫= _) as [[predicate conditions]|]; [|done].
  destruct (negb (py_truthy conditions)); [done|].
  destruct (py_iter conditions) as [cs|]; [|done].
  rewrite !collect_results_spec. simpl.
  rewrite (condition_results_frozen cs email t t' Hc).
  by repeat case_match.
Qed.

Lemma filter_matching_frozen emails rule t :
  (∀ k, clock k = clock 0) →
  (filter_matching emails rule t).1 =
  List.filter (λ email, (evaluate_rule rule email 0).1) emails.
Proof.
  intros Hc. revert t.
  induction emails as [|email rest IH]; intros t; simpl; [done|].
  rewrite <- (evaluate_rule_frozen rule email t 0 Hc).
  destruct (evaluate_rule rule email t) as [matched t1].
  specialize (IH t1). destruct (filter_matching rest rule t1) as [ms t2].
  simpl in *. rewrite IH. by destruct matched.
Qed.

Lemma rule_entries_entries i todo emails t :
  Forall2
    (λ rule entry,
       res_rule entry.2 = rule ∧
       sublist (res_matching_emails entry.2) emails ∧
       res_count entry.2 = length (res_matching_emails entry.2) ∧
       (∃ t0, res_matching_emails entry.2 = (filter_matching emails rule t0).1) ∧
       ((∀ k, clock k = clock 0) →
        res_matching_emails entry.2 =
        List.filter (λ email, (evaluate_rule rule email 0).1) emails))
    todo (rule_entries i todo emails t).1.
Proof.
  revert i t. induction todo as [|rule rest IH]; intros i t; simpl; [constructor|].
  pose proof (filter_matching_sublist emails rule t) as Hsub.
  destruct (filter_matching emails rule t) as [ms t1] eqn:Hms.
  specialize (IH (S i) t1).
  destruct (rule_entries (S i) rest emails t1) as [entries t2].
  simpl in *. constructor; [|done]. simpl.
  repeat split; try done.
  - exists t. by rewrite Hms.
  - intros Hc. by rewrite <- (filter_matching_frozen emails rule t Hc), Hms.
Qed.

Lemma rule_name_seq_NoDup i n : NoDup (map rule_name (seq i n)).
Proof.
  apply NoDup_fmap_2; [intros a b; apply rule_name_inj | apply NoDup_seq].
Qed.

Lemma rule_entries_rules i todo emails t :
  map (λ entry, res_rule entry.2) (rule_entries i todo emails t).1 = todo.
Proof.
  revert i t. induction todo as [|rule rest IH]; intros i t; simpl; [done|].
  destruct (filter_matching emails rule t) as [ms t1].
  specialize (IH (S i) t1).
  destruct (rule_entries (S i) rest emails t1) as [entries t2].
  simpl in *. by rewrite IH.
Qed.

Lemma process_emails_entries self emails t :
  process_emails self emails t = rule_entries 0 (rules self) emails t.
Proof.
  unfold process_emails.
  rewrite process_from_spec; [|by intros key Hin; apply elem_of_nil in Hin].
  simpl. by destruct (rule_entries 0 (rules self) emails t).
Qed.


(** Claim C9.  The validators read the keys they require and no other: a
    key that is none of predicate, conditions and actions changes nothing
    to the answer of [_validate_rule], likewise a key other than field,
    predicate and value for [_validate_condition] and a key other than type
    and value for [_validate_action], and a mark_unread action may carry a
    value.  A candidate that is accepted is held by the engine as it is in
    the document, and the rule of each entry [process_emails] returns is the
    rule the engine holds. *)
Theorem validation_tolerates_extra_keys :
  (∀ (d : gmap string pyval) k x,
     k ∉ ["predicate"; "conditions"; "actions"] →
     _validate_rule (PDict (<[k:=x]> d)) = _validate_rule (PDict d)) ∧
  (∀ (d : gmap string pyval) k x,
     k ∉ ["field"; "predicate"; "value"] →
     _validate_condition (PDict (<[k:=x]> d)) = _validate_condition (PDict d)) ∧
  (∀ (d : gmap string pyval) k x,
     k ∉ ["type"; "value"] →
     _validate_action (PDict (<[k:=x]> d)) = _validate_action (PDict d)) ∧
  (∀ (d : gmap string pyval) x,
     d !! "type" = Some (PStr "mark_unread") →
     _validate_action (PDict (<["value":=x]> d)) = true) ∧
  (∀ fs self doc candidates r,
     fs (rules_file self) = Return doc →
     doc = PList candidates ∨ (candidates = [doc] ∧ ∃ d, doc = PDict d) →
     r ∈ candidates → _validate_rule r = true →
     r ∈ rules (_load_rules fs self).1) ∧
  (∀ self emails t,
     map (λ entry, res_rule entry.2) (process_emails self emails t).1 = rules self).
Proof.
  split; [exact validate_rule_extra_key|].
  split; [exact validate_condition_extra_key|].
  split; [exact validate_action_extra_key|].
  split; [exact validate_mark_unread_with_value|].
  split; [exact load_rules_keeps_valid|].
  intros self emails t. rewrite process_emails_entries. apply rule_entries_rules.
Qed.

(** *** Loading and failure *)


(** *** Date conditions on a record *)

(** What [days_of_value] accepts: a text of two tokens, an integer and a
    unit of days or of months, the latter counted as thirty days. *)
Lemma days_of_value_Some value days :
  days_of_value value = Some days ↔
  ∃ text number_text unit_text number,
    value = PStr text ∧ split text = [number_text; unit_text] ∧
    py_int number_text = Some number ∧
    ((lower unit_text ∈ ["day"; "days"] ∧ days = number) ∨
     (lower unit_text ∈ ["month"; "months"] ∧ days = number * 30)).
Proof.
  unfold days_of_value. split.
  - destruct value as [| | | |text| | |]; simpl; try done.
    destruct (split text) as [|a [|b [|c parts]]] eqn:Hs; try done.
    destruct (py_int a) as [n|] eqn:Hn; [|done].
    repeat case_bool_decide; try done; intros [= <-];
      exists text, a, b, n; repeat split; auto.
  - intros (text & a & b & n & -> & Hs & Hn & Hunit). simpl. rewrite Hs, Hn.
    destruct Hunit as [[Hu ->] | [Hu ->]].
    + by rewrite bool_decide_eq_true_2.
    + rewrite bool_decide_eq_false_2, bool_decide_eq_true_2; [done | done |].
      revert Hu. rewrite !elem_of_cons, !elem_of_nil.
      intros [-> | [-> | []]]; intros [[=] | [[=] | []]].
Qed.


Lemma datetime_lt_asymmetric a b :
  default false (datetime_lt a b) && default false (datetime_lt b a) = false.
Proof.
  unfold datetime_lt. destruct (utcoffset a), (utcoffset b); simpl; try done.
  - destruct (Z.ltb_spec (wall_us a - z) (wall_us b - z0)); [|done].
    destruct (Z.ltb_spec (wall_us b - z0) (wall_us a - z)); [lia | done].
  - destruct (Z.ltb_spec (wall_us a) (wall_us b)); [|done].
    destruct (Z.ltb_spec (wall_us b) (wall_us a)); [lia | done].
Qed.

Lemma compare_with_threshold_exclusive v days t :
  (compare_with_threshold v (PStr "Less than") days t).1 &&
  (compare_with_threshold v (PStr "Greater than") days t).1 = false.
Proof.
  unfold compare_with_threshold, now. simpl.
  destruct (timedelta_days days ≫= _) as [cd|]; [|done]. simpl.
  destruct v; simpl; try done. apply datetime_lt_asymmetric.
Qed.

(** Property X2.  On the same condition, record and clock reading, Less than and Greater
    than are never both true, whatever the field, the value and the record
    are. *)
Theorem less_than_and_greater_than_exclude_each_other
    (d : gmap string pyval) (email : pyval) (t : nat) :
  let eval p :=
    (evaluate_condition (PDict (<["predicate" := PStr p]> d)) email t).1 in
  eval "Less than" && eval "Greater than" = false.
Proof.
  intros eval. subst eval.
  unfold evaluate_condition. cbn [py_getitem].
  rewrite !lookup_insert_eq, !lookup_insert_ne by done.
  destruct (d !! "field") as [f|]; [|done].
  destruct (d !! "value") as [v|]; [|done]. simpl.
  destruct (py_dict_get FIELD_MAPPING f) as [[db|]|]; try done. simpl.
  destruct (negb _); [done|].
  destruct (py_get email db (PStr "")) as [x|]; [|done].
  destruct (py_eq_str f "Received"); [|done].
  rewrite !check_date_condition_unfold.
  destruct (received_datetime x); [|done].
  destruct (days_of_value v); [|done].
  apply compare_with_threshold_exclusive.
Qed.

(** Property X3.  The validator does not look at the value of a condition: a condition on
    Received whose value is not an integer and a unit of days or months
    passes [_validate_condition], and is false on every record, without the
    clock being read. *)
Theorem malformed_date_value_is_accepted_and_never_matches
    (d : gmap string pyval) (p : string) (v : pyval)
    (Hfield : d !! "field" = Some (PStr "Received"))
    (Hpredicate : d !! "predicate" = Some (PStr p))
    (Hp : p ∈ ["Less than"; "Greater than"])
    (Hvalue : d !! "value" = Some v)
    (Hmalformed : days_of_value v = None) :
  _validate_condition (PDict d) = true ∧
  ∀ email t, evaluate_condition (PDict d) email t = (false, t).
Proof.
  split.
  - apply validate_condition_iff. by eapply valid_date_condition.
  - intros email t. unfold evaluate_condition. cbn [py_getitem].
    rewrite Hfield, Hpredicate, Hvalue. simpl.
    replace (FIELD_MAPPING !! "Received") with (Some "received_date") by done.
    simpl. destruct (py_get email _ _); [|done].
    by apply check_date_condition_rejects.
Qed.

(** Property X4.  A date condition is false when its threshold cannot be computed: more
    than 999999999 days in magnitude, or a result before [datetime.min] or
    after [datetime.max]. *)
Theorem date_condition_is_false_beyond_datetime_range
    (d e : gmap string pyval) (p v : pyval) (days : Z) (t : nat)
    (Hfield : d !! "field" = Some (PStr "Received"))
    (Hpredicate : d !! "predicate" = Some p)
    (Hvalue : d !! "value" = Some v)
    (Hdays : days_of_value v = Some days)
    (Hout : 999999999 < Z.abs days ∨
            clock t - days * us_per_day < 0 ∨
            max_ordinal * us_per_day ≤ clock t - days * us_per_day) :
  (evaluate_condition (PDict d) (PDict e) t).1 = false.
Proof.
  rewrite (evaluate_condition_date d e p v t Hfield Hpredicate Hvalue).
  rewrite check_date_condition_unfold, Hdays.
  destruct (received_datetime _); [|done].
  rewrite compare_with_threshold_out_of_range; [done|].
  unfold threshold_in_range. lia.
Qed.

(** *** Malformed conditions and rules *)

Lemma evaluate_condition_not_dict c email t :
  (∀ d, c ≠ PDict d) → evaluate_condition c email t = (false, t).
Proof.
  intros Hc. unfold evaluate_condition. by rewrite (getitem_not_dict c "field" Hc).
Qed.

Lemma condition_results_not_dicts conditions email t :
  Forall (λ c, ∀ d, c ≠ PDict d) conditions →
  condition_results conditions email t =
  (repeat false (length conditions), t).
Proof.
  induction 1 as [|c rest Hc _ IH]; simpl; [done|].
  rewrite (evaluate_condition_not_dict c email t Hc). by rewrite IH.
Qed.

Lemma forallb_id_repeat_false n : n ≠ 0%nat → forallb id (repeat false n) = false.
Proof. by destruct n. Qed.

Lemma existsb_id_repeat_false n : existsb id (repeat false n) = false.
Proof. induction n; simpl; done. Qed.

Lemma py_iter_truthy v l : py_truthy v = true → py_iter v = Some l → l ≠ [].
Proof.
  destruct v; simpl; try done.
  - intros Hs [= <-]. destruct s; [done|]. done.
  - intros Hl [= <-]. by destruct l0.
  - intros Hd [= <-]. apply negb_true_iff, bool_decide_eq_false in Hd.
    intros Hnil. apply Hd. apply map_to_list_empty_iff.
    by destruct (map_to_list d).
Qed.

Lemma py_iter_not_list v l :
  (∀ l', v ≠ PList l') → py_iter v = Some l → Forall (λ c, ∀ d, c ≠ PDict d) l.
Proof.
  intros Hv. destruct v; simpl; try done.
  - intros [= <-]. apply Forall_forall. intros c Hin.
    apply list_elem_of_In, in_map_iff in Hin as (a & <- & _). done.
  - by destruct (Hv l0).
  - intros [= <-]. apply Forall_forall. intros c Hin.
    apply list_elem_of_In, in_map_iff in Hin as (a & <- & _). done.
Qed.

(** Property X6.  [evaluate_condition] and [evaluate_rule] answer False, without reading
    the clock, on what they cannot use: a condition that is not a dict or
    lacks one of its three keys, a field that is not a key of
    FIELD_MAPPING, a record that is not a dict, a rule that is not a dict or
    lacks predicate or conditions, and conditions that are not a list. *)
Theorem evaluation_is_false_on_malformed_input :
  (∀ c email t, (∀ d, c ≠ PDict d) → evaluate_condition c email t = (false, t)) ∧
  (∀ (d : gmap string pyval) email t,
     d !! "field" = None ∨ d !! "predicate" = None ∨ d !! "value" = None →
     evaluate_condition (PDict d) email t = (false, t)) ∧
  (∀ (d : gmap string pyval) f email t,
     d !! "field" = Some f → (∀ s, f = PStr s → FIELD_MAPPING !! s = None) →
     evaluate_condition (PDict d) email t = (false, t)) ∧
  (∀ (d : gmap string pyval) email t,
     (∀ e, email ≠ PDict e) → evaluate_condition (PDict d) email t = (false, t)) ∧
  (∀ rule email t, (∀ d, rule ≠ PDict d) → evaluate_rule rule email t = (false, t)) ∧
  (∀ (d : gmap string pyval) email t,
     d !! "predicate" = None ∨ d !! "conditions" = None →
     evaluate_rule (PDict d) email t = (false, t)) ∧
  (∀ (d : gmap string pyval) conditions email t,
     d !! "conditions" = Some conditions → (∀ l, conditions ≠ PList l) →
     evaluate_rule (PDict d) email t = (false, t)).
Proof.
  repeat split.
  - apply evaluate_condition_not_dict.
  - intros d email t H. unfold evaluate_condition. cbn [py_getitem].
    destruct H as [-> | [-> | ->]]; [done | |].
    + by destruct (d !! "field").
    + by destruct (d !! "field"), (d !! "predicate").
  - intros d f email t Hf Hunknown. unfold evaluate_condition. cbn [py_getitem].
    rewrite Hf. simpl.
    destruct (d !! "predicate"); [|done]. destruct (d !! "value"); [|done]. simpl.
    destruct f; simpl; try done. by rewrite (Hunknown s eq_refl).
  - intros d email t Hemail. unfold evaluate_condition.
    destruct (_ ≫= _) as [[[[f p] v] [db|]]|]; try done.
    destruct (negb _); [done|].
    destruct email; try done. by destruct (Hemail d0).
  - intros rule email t Hrule. unfold evaluate_rule.
    by rewrite (getitem_not_dict rule "predicate" Hrule).
  - intros d email t H. unfold evaluate_rule. cbn [py_getitem].
    destruct H as [-> | ->]; [done|]. by destruct (d !! "predicate").
  - intros d conditions email t Hc Hnot. unfold evaluate_rule. cbn [py_getitem].
    rewrite Hc. destruct (d !! "predicate") as [p|]; [|done]. simpl.
    destruct (py_truthy conditions) eqn:Htruthy; [|done]. simpl.
    destruct (py_iter conditions) as [l|] eqn:Hiter; [|done].
    rewrite collect_results_spec.
    rewrite (condition_results_not_dicts l email t)
      by by eapply py_iter_not_list.
    simpl. rewrite existsb_id_repeat_false, forallb_id_repeat_false.
    + by repeat case_match.
    + pose proof (py_iter_truthy conditions l Htruthy Hiter). by destruct l.
Qed.

(** *** All and Any *)

Lemma forallb_existsb_id (l : list bool) :
  l ≠ [] → forallb id l = true → existsb id l = true.
Proof. destruct l as [|[] l]; simpl; done. Qed.

Lemma condition_results_nonempty conditions email t :
  conditions ≠ [] → (condition_results conditions email t).1 ≠ [].
Proof.
  intros Hne Hnil. pose proof (condition_results_length conditions email t) as H.
  rewrite Hnil in H. by destruct conditions.
Qed.

(** Property X7.  A record a rule matches under All is matched by the same rule under
    Any, with the same readings of the clock. *)
Theorem a_match_under_all_is_a_match_under_any
    (d : gmap string pyval) (email : pyval) (t : nat)
    (Hall : (evaluate_rule (PDict (<["predicate" := PStr "All"]> d)) email t).1 = true) :
  evaluate_rule (PDict (<["predicate" := PStr "Any"]> d)) email t =
  evaluate_rule (PDict (<["predicate" := PStr "All"]> d)) email t.
Proof.
  revert Hall. unfold evaluate_rule. cbn [py_getitem].
  rewrite !lookup_insert_eq, !lookup_insert_ne by done.
  destruct (d !! "conditions") as [conditions|]; [|done]. simpl.
  destruct (py_truthy conditions) eqn:Htruthy; [|done]. simpl.
  destruct (py_iter conditions) as [l|] eqn:Hiter; [|done].
  rewrite collect_results_spec. simpl. intros Hall.
  rewrite Hall. f_equal. apply forallb_existsb_id; [|done].
  apply condition_results_nonempty. by eapply py_iter_truthy.
Qed.

Lemma condition_results_app cs1 cs2 email t :
  condition_results (cs1 ++ cs2) email t =
  ((condition_results cs1 email t).1 ++
   (condition_results cs2 email (condition_results cs1 email t).2).1,
   (condition_results cs2 email (condition_results cs1 email t).2).2)%list.
Proof.
  revert t. induction cs1 as [|c cs1 IH]; intros t; simpl.
  - by destruct (condition_results cs2 email t).
  - destruct (evaluate_condition c email t) as [r t1]. rewrite IH.
    destruct (condition_results cs1 email t1) as [rs t2]. simpl.
    by destruct (condition_results cs2 email t2).
Qed.

Lemma evaluate_rule_list (d : gmap string pyval) p conditions email t :
  d !! "predicate" = Some (PStr p) →
  d !! "conditions" = Some (PList conditions) →
  conditions ≠ [] →
  evaluate_rule (PDict d) email t =
  (if bool_decide (p = "All")
   then forallb id (condition_results conditions email t).1
   else if bool_decide (p = "Any")
   then existsb id (condition_results conditions email t).1
   else false,
   (condition_results conditions email t).2).
Proof.
  intros Hp Hc Hne. destruct conditions as [|c rest]; [done|].
  by rewrite (evaluate_rule_nonempty d (PStr p) c rest email t Hp Hc).
Qed.

(** Property X8.  Appending a condition to a rule: under All, with at least one condition
    already, the longer rule matches no record the shorter one did not;
    under Any the longer rule matches every record the shorter one did. *)
Theorem one_more_condition_narrows_all_and_widens_any
    (d : gmap string pyval) (conditions : list pyval) (condition email : pyval)
    (t : nat)
    (Hconditions : d !! "conditions" = Some (PList conditions)) :
  let longer := PDict (<["conditions" := PList (conditions ++ [condition])]> d) in
  (d !! "predicate" = Some (PStr "All") → conditions ≠ [] →
   (evaluate_rule longer email t).1 = true →
   (evaluate_rule (PDict d) email t).1 = true) ∧
  (d !! "predicate" = Some (PStr "Any") →
   (evaluate_rule (PDict d) email t).1 = true →
   (evaluate_rule longer email t).1 = true).
Proof.
  intros longer. subst longer.
  assert (∀ p, d !! "predicate" = Some (PStr p) →
    evaluate_rule (PDict (<["conditions" := PList (conditions ++ [condition])]> d))
      email t =
    (if bool_decide (p = "All")
     then forallb id (condition_results (conditions ++ [condition]) email t).1
     else if bool_decide (p = "Any")
     then existsb id (condition_results (conditions ++ [condition]) email t).1
     else false,
     (condition_results (conditions ++ [condition]) email t).2)) as Hlonger.
  { intros p Hp. apply evaluate_rule_list.
    - by rewrite lookup_insert_ne.
    - by rewrite lookup_insert_eq.
    - by destruct conditions. }
  split.
  - intros Hp Hne. rewrite (Hlonger "All" Hp).
    rewrite (evaluate_rule_list d "All" conditions email t Hp Hconditions Hne).
    simpl. rewrite condition_results_app. simpl.
    rewrite forallb_app. by intros [? _]%andb_true_iff.
  - intros Hp. rewrite (Hlonger "Any" Hp).
    destruct (decide (conditions = [])) as [-> | Hne].
    { unfold evaluate_rule. cbn [py_getitem]. by rewrite Hp, Hconditions. }
    rewrite (evaluate_rule_list d "Any" conditions email t Hp Hconditions Hne).
    simpl. rewrite condition_results_app. simpl.
    rewrite existsb_app. by intros ->.
Qed.

(** *** Text conditions *)

Lemma substringb_refl s : substringb s s = true.
Proof.
  assert (String.prefix s s = true) as H.
  { induction s as [|c s IH]; simpl; [done|].
    destruct (ascii_dec c c); [done | congruence]. }
  destruct s; simpl; [done|]. simpl in H. by rewrite H.
Qed.

Lemma substringb_empty s : substringb "" s = true.
Proof. by destruct s. Qed.

(** Property X10.  On the same operands, Equals implies Contains, and Does not Contain
    implies Does not equal. *)
Theorem equals_implies_contains (x y : pyval) :
  (_check_string_condition x (PStr "Equals") y = true →
   _check_string_condition x (PStr "Contains") y = true) ∧
  (_check_string_condition x (PStr "Does not Contain") y = true →
   _check_string_condition x (PStr "Does not equal") y = true).
Proof.
  unfold _check_string_condition. simpl.
  split.
  - intros Heq%bool_decide_eq_true. rewrite Heq. apply substringb_refl.
  - intros Hnot%negb_true_iff. apply negb_true_iff, bool_decide_eq_false.
    intros Heq. rewrite Heq, substringb_refl in Hnot. done.
Qed.


(** *** Records in batches *)

Lemma filter_matching_app emails1 emails2 rule t :
  filter_matching (emails1 ++ emails2) rule t =
  ((filter_matching emails1 rule t).1 ++
   (filter_matching emails2 rule (filter_matching emails1 rule t).2).1,
   (filter_matching emails2 rule (filter_matching emails1 rule t).2).2)%list.
Proof.
  revert t. induction emails1 as [|email rest IH]; intros t; simpl.
  - by destruct (filter_matching emails2 rule t).
  - destruct (evaluate_rule rule email t) as [matched t1]. rewrite IH.
    destruct (filter_matching rest rule t1) as [ms t2]. simpl.
    destruct (filter_matching emails2 rule t2) as [ms' t3]. simpl.
    by destruct matched.
Qed.

Lemma get_matching_emails_filter emails rule t :
  get_matching_emails emails rule t = filter_matching emails rule t.
Proof.
  unfold get_matching_emails. rewrite matching_from_spec. simpl.
  by destruct (filter_matching emails rule t).
Qed.

(** Property X12.  The records a rule matches in two batches one after the other are those
    it matches in the first batch followed by those it matches in the
    second, the clock being read on. *)
Theorem get_matching_emails_of_two_batches
    (batch1 batch2 : list pyval) (rule : pyval) (t : nat) :
  let first := get_matching_emails batch1 rule t in
  let second := get_matching_emails batch2 rule first.2 in
  get_matching_emails (batch1 ++ batch2) rule t =
  ((first.1 ++ second.1)%list, second.2).
Proof.
  intros first second. subst first second.
  rewrite !get_matching_emails_filter. apply filter_matching_app.
Qed.

Lemma rule_entries_app_frozen i todo emails1 emails2 t t1 t2 :
  (∀ k, clock k = clock 0) →
  (rule_entries i todo (emails1 ++ emails2) t).1 =
  zip_with
    (λ entry1 entry2,
       (entry1.1,
        mk_rule_result (res_rule entry1.2)
          (res_matching_emails entry1.2 ++ res_matching_emails entry2.2)
          (res_count entry1.2 + res_count entry2.2)))
    (rule_entries i todo emails1 t1).1 (rule_entries i todo emails2 t2).1.
Proof.
  intros Hc. revert i t t1 t2.
  induction todo as [|rule rest IH]; intros i t t1 t2; simpl; [done|].
  pose proof (filter_matching_frozen (emails1 ++ emails2) rule t Hc) as H12.
  pose proof (filter_matching_frozen emails1 rule t1 Hc) as H1.
  pose proof (filter_matching_frozen emails2 rule t2 Hc) as H2.
  destruct (filter_matching (emails1 ++ emails2) rule t) as [ms t'].
  destruct (filter_matching emails1 rule t1) as [ms1 t1'].
  destruct (filter_matching emails2 rule t2) as [ms2 t2'].
  simpl in H12, H1, H2. subst ms ms1 ms2.
  specialize (IH (S i) t' t1' t2').
  destruct (rule_entries (S i) rest (emails1 ++ emails2) t') as [entries t''].
  destruct (rule_entries (S i) rest emails1 t1') as [entries1 t1''].
  destruct (rule_entries (S i) rest emails2 t2') as [entries2 t2''].
  simpl in *. rewrite IH. by rewrite List.filter_app, length_app.
Qed.

(** Property X13.  With the clock held still, processing two batches together gives, rule
    by rule, the entry of the first batch joined with the entry of the
    second: the same key and rule, the matching records of the first
    followed by those of the second, and the sum of the counts. *)
Theorem process_emails_of_two_batches
    (self : RuleEngine) (batch1 batch2 : list pyval) (t t1 t2 : nat)
    (Hclock : ∀ k, clock k = clock 0) :
  (process_emails self (batch1 ++ batch2) t).1 =
  zip_with
    (λ entry1 entry2,
       (entry1.1,
        mk_rule_result (res_rule entry1.2)
          (res_matching_emails entry1.2 ++ res_matching_emails entry2.2)
          (res_count entry1.2 + res_count entry2.2)))
    (process_emails self batch1 t1).1 (process_emails self batch2 t2).1.
Proof.
  rewrite !process_emails_entries. by apply rule_entries_app_frozen.
Qed.

End EvaluationProperties.

(** * The engine on the examples *)

#[local] Abbreviation sample_evaluate_condition :=
  (evaluate_condition isoformat_parse sample_str_other sample_clock).
#[local] Abbreviation sample_evaluate_rule :=
  (evaluate_rule isoformat_parse sample_str_other sample_clock).
#[local] Abbreviation sample_process_emails :=
  (process_emails isoformat_parse sample_str_other sample_clock).

(** The two scenarios of the tests: the rule of the tests matches their
    record, and so does a rule under Any whose second condition alone
    holds. *)
Example evaluate_rule_all_scenario :
  sample_evaluate_rule sample_rule sample_email 0 = (true, 0%nat).
Proof. vm_compute. reflexivity. Qed.

Example evaluate_rule_any_scenario :
  sample_evaluate_rule
    (PDict {[ "predicate" := PStr "Any";
              "conditions" := PList [
                PDict {[ "field" := PStr "From"; "predicate" := PStr "Contains";
                         "value" := PStr "nonexistent" ]};
                PDict sample_subject_condition ];
              "actions" := PList [] ]})
    sample_email 0 = (true, 0%nat).
Proof. vm_compute. reflexivity. Qed.

Example days_of_value_examples :
  days_of_value (PStr "7 days") = Some 7 ∧
  days_of_value (PStr "2 Months") = Some 60 ∧
  days_of_value (PStr "1_0 DAY") = Some 10 ∧
  days_of_value (PStr "7") = None ∧
  days_of_value (PStr "7 days ago") = None ∧
  days_of_value (PStr "seven days") = None ∧
  days_of_value (PStr "7 weeks") = None ∧
  days_of_value (PInt 7) = None.
Proof. vm_compute. repeat split; reflexivity. Qed.

(** Claim C1 on the sample document: of its two candidates the engine
    keeps the rule of the tests and drops the one without actions. *)
Lemma load_keeps_exactly_the_valid_rules_witness :
  sample_fs (rules_file sample_engine) = Return sample_document ∧
  rules (_load_rules sample_fs sample_engine).1 = [sample_rule] ∧
  rule_valid sample_rule ∧ ¬ rule_valid sample_invalid_rule.
Proof.
  pose proof (load_keeps_exactly_the_valid_rules
                sample_fs sample_engine sample_document
                [sample_invalid_rule; sample_rule]
                eq_refl (or_introl eq_refl)) as H.
  cbv zeta in H. destruct H as (Hvalid & Hloaded & _).
  split; [reflexivity|]. split; [rewrite Hloaded; vm_compute; reflexivity|].
  split.
  - apply Hvalid. vm_compute. reflexivity.
  - intros Hr. apply Hvalid in Hr. vm_compute in Hr. discriminate Hr.
Defined.

(** Claim C2 on the rule and the record of the tests: both conditions
    hold, and the rule, under All, matches. *)
Lemma evaluate_rule_combines_conditions_witness :
  sample_rule_fields !! "predicate" = Some (PStr "All") ∧
  sample_rule_fields !! "conditions" = Some (PList sample_conditions) ∧
  sample_evaluate_rule sample_rule sample_email 0 = (true, 0%nat).
Proof.
  pose proof (evaluate_rule_combines_conditions
                isoformat_parse sample_str_other sample_clock
                sample_rule_fields (PStr "All") sample_conditions sample_email 0
                eq_refl eq_refl) as H.
  cbv zeta in H. destruct H as (_ & _ & Hall & _).
  split; [reflexivity|]. split; [reflexivity|].
  unfold sample_rule. rewrite Hall; [vm_compute; reflexivity | discriminate | reflexivity].
Defined.






(** Claim C9 on the rule of the tests with a name added to it. *)
Lemma validation_tolerates_extra_keys_witness :
  ("name" ∉ ["predicate"; "conditions"; "actions"]) ∧
  _validate_rule (PDict (<["name" := PStr "newsletters"]> sample_rule_fields)) = true.
Proof.
  assert ("name" ∉ ["predicate"; "conditions"; "actions"]) as Hnot.
  { rewrite !not_elem_of_cons. repeat split; try discriminate. apply not_elem_of_nil. }
  split; [exact Hnot|].
  destruct (validation_tolerates_extra_keys
              isoformat_parse sample_str_other sample_clock) as (Hrule & _).
  rewrite (Hrule sample_rule_fields "name" (PStr "newsletters") Hnot).
  vm_compute. reflexivity.
Defined.

(** Claim C3 fails on the code for a received date that carries a UTC
    offset, the form in which the fetcher stores it
    ([parsedate_to_datetime(...).isoformat()]).  The date below is years
    before the threshold of seven days, and written without an offset Less
    than holds for it; written with its offset the comparison with the naive
    [datetime.now() - timedelta(...)] raises, and Less than is false.
    Likewise Greater than is false for a date one day before the clock's
    reading. *)
Theorem date_condition_is_false_for_aware_timestamp :
  sample_evaluate_condition
    (PDict (date_condition "Less than" "7 days"))
    (PDict (received_at "2020-01-01T10:00:00")) 0 = (true, 1%nat) ∧
  isoformat_parse "2020-01-01T10:00:00+00:00" =
    Some (mk_datetime 63713469600000000 (Some 0)) ∧
  63713469600000000 - 0 < sample_clock 0 - 7 * us_per_day ∧
  sample_evaluate_condition
    (PDict (date_condition "Less than" "7 days"))
    (PDict (received_at "2020-01-01T10:00:00+00:00")) 0 = (false, 1%nat) ∧
  sample_evaluate_condition
    (PDict (date_condition "Greater than" "7 days"))
    (PDict (received_at "2026-11-02T12:00:00")) 0 = (true, 1%nat) ∧
  sample_evaluate_condition
    (PDict (date_condition "Greater than" "7 days"))
    (PDict (received_at "2026-11-02T12:00:00+00:00")) 0 = (false, 1%nat).
Proof. vm_compute. repeat split; reflexivity. Qed.

(** * Further properties *)

(** ** Rules without a date condition *)

Lemma evaluate_condition_without_date parse1 parse2 other clock1 clock2
    condition email t1 t2 :
  py_getitem condition "field" ≠ Some (PStr "Received") →
  evaluate_condition parse1 other clock1 condition email t1 =
  ((evaluate_condition parse2 other clock2 condition email t2).1, t1).
Proof.
  intros Hfield. unfold evaluate_condition.
  destruct (py_getitem condition "field") as [f|]; [|done]. simpl.
  destruct (py_getitem condition "predicate"); [|done].
  destruct (py_getitem condition "value"); [|done]. simpl.
  destruct (py_dict_get FIELD_MAPPING f) as [[db|]|]; try done. simpl.
  destruct (negb _); [done|].
  destruct (py_get email db (PStr "")); [|done].
  destruct (py_eq_str f "Received") eqn:Hr; [|done].
  apply py_eq_str_true in Hr. by subst f.
Qed.

Lemma condition_results_without_date parse1 parse2 other clock1 clock2
    conditions email :
  Forall (λ c, py_getitem c "field" ≠ Some (PStr "Received")) conditions →
  ∀ t1 t2,
    condition_results parse1 other clock1 conditions email t1 =
    ((condition_results parse2 other clock2 conditions email t2).1, t1).
Proof.
  induction 1 as [|c rest Hc _ IH]; intros t1 t2; simpl; [done|].
  rewrite (evaluate_condition_without_date parse1 parse2 other clock1 clock2
             c email t1 t2 Hc).
  destruct (evaluate_condition parse2 other clock2 c email t2) as [r t2'].
  simpl. rewrite (IH t1 t2').
  by destruct (condition_results parse2 other clock2 rest email t2').
Qed.

(** Property X9.  A rule none of whose conditions is on Received gives the same answer
    under any parser and any clock and after any number of readings, and
    does not read the clock. *)
Theorem rules_without_date_conditions_ignore_the_clock
    (parse1 parse2 : string → option datetime) (other : pyval → string)
    (clock1 clock2 : nat → Z)
    (d : gmap string pyval) (conditions : list pyval) (email : pyval)
    (t1 t2 : nat)
    (Hconditions : d !! "conditions" = Some (PList conditions))
    (Htext : Forall (λ c, py_getitem c "field" ≠ Some (PStr "Received"))
               conditions) :
  evaluate_rule parse1 other clock1 (PDict d) email t1 =
  ((evaluate_rule parse2 other clock2 (PDict d) email t2).1, t1).
Proof.
  unfold evaluate_rule. cbn [py_getitem]. rewrite Hconditions.
  destruct (d !! "predicate") as [p|]; [|done]. simpl.
  destruct conditions as [|c rest]; [done|]. cbn [negb].
  rewrite !collect_results_spec.
  rewrite (condition_results_without_date parse1 parse2 other clock1 clock2
             (c :: rest) email Htext t1 t2).
  simpl. by repeat case_match.
Qed.

(** ** The rules an engine holds *)

Lemma load_rules_outcome fs self :
  ((_load_rules fs self).1 = self ∨
   ∃ candidates,
     (_load_rules fs self).1 =
     mk_engine (rules_file self) (List.filter _validate_rule candidates)).
Proof.
  unfold _load_rules.
  destruct (fs (rules_file self)) as [e|data].
  - destruct e; simpl; auto; right; by exists [].
  - right. destruct data as [| | | | |candidates|d|]; simpl;
      rewrite ?validate_each_filter; try (by exists []).
    + by exists candidates.
    + by exists [PDict d].
Qed.

Lemma filter_validate_rule_valid candidates :
  Forall rule_valid (List.filter _validate_rule candidates).
Proof.
  apply Forall_forall. intros r Hr.
  apply list_elem_of_In, filter_In in Hr as [_ Hr]. by apply validate_rule_iff.
Qed.

(** Property X14.  Every rule an engine holds is structurally valid: after the
    constructor, and after [reload_rules] on an engine whose rules were
    valid, whether the reload replaced the rules, emptied them or raised;
    the path of the rules file never changes. *)
Theorem engine_holds_only_valid_rules (fs : string → read_result) :
  (∀ file engine,
     __init__ fs file = inr engine →
     Forall rule_valid (rules engine) ∧ rules_file engine = file) ∧
  (∀ self,
     Forall rule_valid (rules self) →
     Forall rule_valid (rules (reload_rules fs self).1) ∧
     rules_file (reload_rules fs self).1 = rules_file self).
Proof.
  assert (∀ self, Forall rule_valid (rules self) →
            Forall rule_valid (rules (_load_rules fs self).1) ∧
            rules_file (_load_rules fs self).1 = rules_file self) as Hload.
  { intros self Hvalid.
    destruct (load_rules_outcome fs self) as [-> | [candidates ->]]; [done|].
    simpl. split; [apply filter_validate_rule_valid | done]. }
  split; [|exact Hload].
  intros file engine. unfold __init__.
  specialize (Hload (mk_engine file []) (Forall_nil_2 _)).
  destruct (_load_rules fs (mk_engine file [])) as [self [e|]]; [done|].
  by intros [= <-].
Qed.

(** ** The summary *)


Lemma rule_info_of_valid i rule :
  rule_valid rule →
  ∃ info, rule_info_of i rule = Some info ∧ info_id info = (i + 1)%nat ∧
          summarizes rule info.
Proof.
  intros [d p conditions actions Hp Hin Hc _ Ha _].
  unfold rule_info_of. simpl. rewrite Hp, Hc, Ha. simpl.
  eexists. split; [done|]. split; [done|].
  exists p, conditions, actions. by repeat split.
Qed.

Lemma summary_from_valid i todo infos :
  Forall rule_valid todo →
  ∃ more, summary_from i todo infos = Some (infos ++ more)%list ∧
          map info_id more = seq (i + 1) (length todo) ∧
          Forall2 summarizes todo more.
Proof.
  intros Hvalid. revert i infos.
  induction Hvalid as [|rule rest Hrule _ IH]; intros i infos; simpl.
  - exists []. by rewrite app_nil_r.
  - destruct (rule_info_of_valid i rule Hrule) as (info & -> & Hid & Hinfo).
    simpl. destruct (IH (S i) (infos ++ [info])%list) as (more & -> & Hids & Hmore).
    exists (info :: more). split; [by rewrite <- app_assoc|].
    split; [|by constructor]. simpl. by rewrite Hid, Hids.
Qed.

(** Property X15.  On an engine whose rules are all valid [get_summary] does not raise:
    [total_rules] is the number of rules, the ids are 1, 2, ... in the
    order of the rules, and each element reports the predicate, the
    conditions and the actions of its rule with the lengths of the two
    lists. *)
Theorem get_summary_of_valid_rules
    (self : RuleEngine) (Hvalid : Forall rule_valid (rules self)) :
  ∃ s, get_summary self = Some s ∧
       total_rules s = length (rules self) ∧
       map info_id (summary_rules s) = seq 1 (length (rules self)) ∧
       Forall2 summarizes (rules self) (summary_rules s).
Proof.
  unfold get_summary.
  destruct (summary_from_valid 0 (rules self) [] Hvalid) as (more & -> & Hids & Hmore).
  simpl. eexists. by repeat split.
Qed.

(** ** The search query *)

Lemma string_app_cons x (a b : string) : String x a +:+ b = String x (a +:+ b).
Proof. reflexivity. Qed.

Lemma string_app_assoc (a b c : string) : (a +:+ b) +:+ c = a +:+ (b +:+ c).
Proof.
  induction a as [|x a IH]; [done|]. by rewrite !string_app_cons, IH.
Qed.

Lemma string_app_empty_r (a : string) : a +:+ "" = a.
Proof.
  induction a as [|x a IH]; [done|]. by rewrite string_app_cons, IH.
Qed.

Lemma count_char_app c (a b : string) :
  count_char c (a +:+ b) = (count_char c a + count_char c b)%nat.
Proof.
  induction a as [|x a IH]; [done|]. rewrite string_app_cons. simpl.
  rewrite IH. lia.
Qed.

Lemma is_mapped_column_true field :
  is_mapped_column field = true ↔
  ∃ column, field = PStr column ∧
    column ∈ ["from_address"; "to_address"; "subject"; "message"; "received_date"].
Proof.
  unfold is_mapped_column.
  replace (map snd (map_to_list FIELD_MAPPING))
    with ["subject"; "message"; "from_address"; "received_date"; "to_address"]
    by (vm_compute; reflexivity).
  change (existsb (py_eq_str field) ?l) with (py_in_strs field l).
  rewrite py_in_strs_true.
  split; intros (c & -> & Hc); exists c; (split; [done|]);
    revert Hc; rewrite !elem_of_cons, !elem_of_nil; intuition.
Qed.

Section SearchQuery.

Variable py_str_other : pyval → string.

#[local] Abbreviation py_str := (py_str py_str_other).
#[local] Abbreviation build_from := (build_from py_str_other).
#[local] Abbreviation build_search_query := (build_search_query py_str_other).

Lemma build_from_spec items query params :
  build_from items query params =
  (query +:+
     fold_right String.append ""
       (map (λ field, " AND " +:+ py_str field +:+ " LIKE ?")
            (List.filter is_mapped_column (map fst items))),
   (params ++
      map (λ item, "%" +:+ py_str item.2 +:+ "%")
          (List.filter (λ item, is_mapped_column item.1) items))%list).
Proof.
  revert query params.
  induction items as [|[field value] rest IH]; intros query params; simpl.
  - by rewrite string_app_empty_r, app_nil_r.
  - destruct (is_mapped_column field); simpl; rewrite IH; [|done].
    rewrite <- app_assoc. by rewrite !string_app_assoc.
Qed.


End SearchQuery.

(** ** The further properties on the examples *)


(** Property X3 on the value soon. *)
Lemma malformed_date_value_is_accepted_and_never_matches_witness :
  date_condition "Less than" "soon" !! "field" = Some (PStr "Received") ∧
  "Less than" ∈ ["Less than"; "Greater than"] ∧
  days_of_value (PStr "soon") = None ∧
  _validate_condition (PDict (date_condition "Less than" "soon")) = true ∧
  sample_evaluate_condition
    (PDict (date_condition "Less than" "soon")) sample_email 0 = (false, 0%nat).
Proof.
  assert ("Less than" ∈ ["Less than"; "Greater than"]) as Hin
    by apply list_elem_of_here.
  pose proof (malformed_date_value_is_accepted_and_never_matches
                isoformat_parse sample_str_other sample_clock
                (date_condition "Less than" "soon") "Less than" (PStr "soon")
                eq_refl eq_refl Hin eq_refl eq_refl) as [Hvalid Hfalse].
  split; [reflexivity|]. split; [exact Hin|]. split; [reflexivity|].
  split; [exact Hvalid | apply Hfalse].
Defined.

(** Property X4 on a threshold of four million days, before year 1. *)
Lemma date_condition_is_false_beyond_datetime_range_witness :
  days_of_value (PStr "4000000 days") = Some 4000000 ∧
  sample_clock 0 - 4000000 * us_per_day < 0 ∧
  (sample_evaluate_condition
     (PDict (date_condition "Greater than" "4000000 days"))
     (PDict (received_at "2020-01-01T10:00:00")) 0).1 = false.
Proof.
  assert (sample_clock 0 - 4000000 * us_per_day < 0) as Hout.
  { unfold us_per_day.
    replace (sample_clock 0) with 63929304000000000 by reflexivity. lia. }
  split; [reflexivity|]. split; [exact Hout|].
  apply (date_condition_is_false_beyond_datetime_range
           isoformat_parse sample_str_other sample_clock
           (date_condition "Greater than" "4000000 days")
           (received_at "2020-01-01T10:00:00")
           (PStr "Greater than") (PStr "4000000 days") 4000000 0
           eq_refl eq_refl eq_refl eq_refl (or_intror (or_introl Hout))).
Defined.


(** Property X7 on the rule and the record of the tests. *)
Lemma a_match_under_all_is_a_match_under_any_witness :
  (sample_evaluate_rule
     (PDict (<["predicate" := PStr "All"]> sample_rule_fields)) sample_email 0).1
    = true ∧
  sample_evaluate_rule
    (PDict (<["predicate" := PStr "Any"]> sample_rule_fields)) sample_email 0 =
  (true, 0%nat).
Proof.
  assert ((sample_evaluate_rule
             (PDict (<["predicate" := PStr "All"]> sample_rule_fields))
             sample_email 0).1 = true) as Hall by (vm_compute; reflexivity).
  split; [exact Hall|].
  rewrite (a_match_under_all_is_a_match_under_any
             isoformat_parse sample_str_other sample_clock
             sample_rule_fields sample_email 0 Hall).
  vm_compute. reflexivity.
Defined.

(** Property X8: the rule of the tests still matches their record when its
    second condition is taken away. *)
Lemma one_more_condition_narrows_all_and_widens_any_witness :
  (<["conditions" := PList [PDict sample_from_condition]]> sample_rule_fields)
    !! "conditions" = Some (PList [PDict sample_from_condition]) ∧
  (sample_evaluate_rule
     (PDict (<["conditions" := PList [PDict sample_from_condition]]>
               sample_rule_fields))
     sample_email 0).1 = true.
Proof.
  pose proof (one_more_condition_narrows_all_and_widens_any
                isoformat_parse sample_str_other sample_clock
                (<["conditions" := PList [PDict sample_from_condition]]>
                   sample_rule_fields)
                [PDict sample_from_condition] (PDict sample_subject_condition)
                sample_email 0 eq_refl) as H.
  cbv zeta in H. destruct H as [Hall _].
  split; [reflexivity|].
  apply Hall; [reflexivity | discriminate | vm_compute; reflexivity].
Defined.

(** Property X9 on the rule of the tests, whose two conditions are on
    From and on Subject. *)
Lemma rules_without_date_conditions_ignore_the_clock_witness :
  sample_rule_fields !! "conditions" = Some (PList sample_conditions) ∧
  Forall (λ c, py_getitem c "field" ≠ Some (PStr "Received")) sample_conditions ∧
  sample_evaluate_rule sample_rule sample_email 0 =
  ((evaluate_rule (λ _, None) sample_str_other (λ _, 0)
      sample_rule sample_email 5).1, 0%nat).
Proof.
  assert (Forall (λ c, py_getitem c "field" ≠ Some (PStr "Received"))
            sample_conditions) as Htext.
  { repeat constructor; discriminate. }
  split; [reflexivity|]. split; [exact Htext|].
  apply (rules_without_date_conditions_ignore_the_clock
           isoformat_parse (λ _, None) sample_str_other sample_clock (λ _, 0)
           sample_rule_fields sample_conditions sample_email 0 5 eq_refl Htext).
Defined.


(** Property X13 on the record of the tests, in two batches of one, with
    the clock stopped at its first reading. *)
Lemma process_emails_of_two_batches_witness :
  (∀ k : nat, (λ _ : nat, sample_clock 0) k = (λ _ : nat, sample_clock 0) 0%nat) ∧
  map (λ entry, (entry.1, res_count entry.2))
    (process_emails isoformat_parse sample_str_other (λ _, sample_clock 0)
       (mk_engine "rules.json" [sample_rule])
       ([sample_email] ++ [sample_email]) 0).1 = [("rule_1", 2%nat)].
Proof.
  assert (∀ k : nat,
            (λ _ : nat, sample_clock 0) k = (λ _ : nat, sample_clock 0) 0%nat)
    as Hclock by reflexivity.
  split; [exact Hclock|].
  rewrite (process_emails_of_two_batches
             isoformat_parse sample_str_other (λ _, sample_clock 0)
             (mk_engine "rules.json" [sample_rule])
             [sample_email] [sample_email] 0 0 0 Hclock).
  vm_compute. reflexivity.
Defined.

(** Property X15 on an engine that holds the rule of the tests; with the
    candidate without actions [get_summary] raises. *)
Lemma get_summary_of_valid_rules_witness :
  Forall rule_valid (rules (mk_engine "rules.json" [sample_rule])) ∧
  (∃ s, get_summary (mk_engine "rules.json" [sample_rule]) = Some s ∧
        total_rules s = 1%nat ∧ map info_id (summary_rules s) = [1%nat]) ∧
  get_summary (mk_engine "rules.json" [sample_invalid_rule]) = None.
Proof.
  assert (Forall rule_valid (rules (mk_engine "rules.json" [sample_rule])))
    as Hvalid.
  { repeat constructor. apply validate_rule_iff. vm_compute. reflexivity. }
  split; [exact Hvalid|]. split; [|reflexivity].
  destruct (get_summary_of_valid_rules _ Hvalid) as (s & Hs & Htotal & Hids & _).
  exists s. by repeat split.
Defined.
